(** * A shallow embedding of the HTTP server of [5-http-implementation/http/server.go]

    Go strings are byte sequences and are modelled as [string] (a list of
    8-bit [ascii]); Go maps [map[string]string] are [gmap string string];
    Go's [int] and [int64] are [Z].  The functions of the Go standard
    library that [server.go] calls are modelled in the modules [strings],
    [strconv] and [io], each next to the Go text it follows. *)

From Stdlib Require Import ZArith NArith Ascii String List Lia Bool DecimalString.
From stdpp Require Import base option list gmap strings.

Local Open Scope Z_scope.

(** ** Errors

    [error] values of the Go code.  Only the distinction between [nil] and
    non-[nil] is observed by [server.go]; the constructors record where an
    error comes from. *)
Inductive error : Type :=
  | EOF                                   (* io.EOF *)
  | ErrSyntax                             (* strconv.ErrSyntax *)
  | ErrRange                              (* strconv.ErrRange *)
  | ErrShortWrite                         (* a failed Write on the connection *)
  | ErrMalformedRequestLine (ln : string) (* "malformed request line: %q" *)
  | ErrUnsupportedStatus (code : Z).      (* "unsupported status code: %v" *)

Inductive result (A : Type) : Type :=
  | Ok (a : A)
  | Err (e : error).
Arguments Ok {A} a.
Arguments Err {A} e.

Definition LF : ascii := "010"%char.
Definition CR : ascii := "013"%char.
Definition crlf : string := String CR (String LF EmptyString).

(** ** The Unicode tables of the Go runtime

    [strings.ToLower] and [strings.TrimSpace] handle ASCII input themselves
    and fall back on the Unicode tables of package [unicode] as soon as a
    byte [>= utf8.RuneSelf] is met.  The tables are not part of the
    repository; the three fallbacks are parameters of the development. *)
Class Unicode : Type := {
  (* strings.Map(unicode.ToLower, s) *)
  mapToLower : string → string;
  (* strings.TrimFunc(s, unicode.IsSpace) *)
  trimFuncSpace : string → string;
  (* strings.TrimRightFunc(s, unicode.IsSpace) *)
  trimRightFuncSpace : string → string
}.

Module strings.

(** [s[i:j]] and [s[i:]] *)
Definition slice (s : string) (i j : nat) : string :=
  String.substring i (j - i) s.
Definition sliceFrom (s : string) (i : nat) : string :=
  String.substring i (String.length s - i) s.

(** [strings.IndexByte(s, c)], [None] for the Go result [-1] *)
Fixpoint IndexByte (s : string) (c : ascii) : option nat :=
  match s with
  | EmptyString => None
  | String a s' => if Ascii.eqb a c then Some O else S <$> IndexByte s' c
  end.

(** [strings.Count(s, sep)] for a one-byte separator *)
Fixpoint Count (s : string) (c : ascii) : nat :=
  match s with
  | EmptyString => O
  | String a s' => if Ascii.eqb a c then S (Count s' c) else Count s' c
  end.

(** [genSplit(s, sep, 0, n)] of package [strings], for a one-byte
    separator: at most [cuts] separators are consumed, that is the result
    has at most [cuts + 1] fields ([n = cuts + 1]). *)
Fixpoint genSplit (s : string) (sep : ascii) (cuts : nat) : list string :=
  match cuts with
  | O => [s]
  | S cuts' =>
      match IndexByte s sep with
      | None => [s]
      | Some m => slice s 0 m :: genSplit (sliceFrom s (m + 1)) sep cuts'
      end
  end.

(** [strings.Split(s, sep)]: [genSplit(s, sep, 0, -1)], which sets
    [n = Count(s, sep) + 1]. *)
Definition Split (s : string) (sep : ascii) : list string :=
  genSplit s sep (Count s sep).

(** [strings.SplitN(s, sep, n)] for [n >= 0] ([n = 0] gives [nil]). *)
Definition SplitN (s : string) (sep : ascii) (n : nat) : list string :=
  match n with
  | O => []
  | S cuts => genSplit s sep cuts
  end.

(** [strings.HasSuffix] and [strings.TrimSuffix] *)
Definition HasSuffix (s suffix : string) : bool :=
  (String.length suffix <=? String.length s)%nat &&
  String.eqb (sliceFrom s (String.length s - String.length suffix)) suffix.

Definition TrimSuffix (s suffix : string) : string :=
  if HasSuffix s suffix
  then slice s 0 (String.length s - String.length suffix)
  else s.

(** [c >= utf8.RuneSelf] *)
Definition nonASCII (c : ascii) : bool := (128 <=? N_of_ascii c)%N.

Fixpoint isASCII (s : string) : bool :=
  match s with
  | EmptyString => true
  | String c s' => negb (nonASCII c) && isASCII s'
  end.

(** the ASCII branch of [strings.ToLower]: ['A'..'Z'] get ['a' - 'A'] added *)
Definition lowerByte (c : ascii) : ascii :=
  if ((65 <=? N_of_ascii c) && (N_of_ascii c <=? 90))%N
  then ascii_of_N (N_of_ascii c + 32)
  else c.

Fixpoint lowerBytes (s : string) : string :=
  match s with
  | EmptyString => EmptyString
  | String c s' => String (lowerByte c) (lowerBytes s')
  end.

(** [strings.ToLower]: byte-wise on an all-ASCII string, through the
    Unicode tables otherwise. *)
Definition ToLower {U : Unicode} (s : string) : string :=
  if isASCII s then lowerBytes s else mapToLower s.

(** the table [asciiSpace] of package [strings] *)
Definition asciiSpace (c : ascii) : bool :=
  match c with
  | "009" | "010" | "011" | "012" | "013" | " " => true
  | _ => false
  end%char.

(** the first loop of [strings.TrimSpace]: [s[start:]] where [start] is
    the first byte that is not ASCII white space *)
Fixpoint skipSpace (s : string) : string :=
  match s with
  | EmptyString => EmptyString
  | String c s' => if asciiSpace c then skipSpace s' else s
  end.

(** the second loop of [strings.TrimSpace]: [s[:stop]] where [stop] is
    just after the last byte that is not ASCII white space *)
Fixpoint dropSpaceRight (s : string) : string :=
  match s with
  | EmptyString => EmptyString
  | String c s' =>
      match dropSpaceRight s' with
      | EmptyString => if asciiSpace c then EmptyString else String c EmptyString
      | r => String c r
      end
  end.

Fixpoint lastByte (s : string) : option ascii :=
  match s with
  | EmptyString => None
  | String c EmptyString => Some c
  | String _ s' => lastByte s'
  end.

(** [strings.TrimSpace]: either loop hands over to the Unicode-aware
    functions when the byte it stops at is not ASCII. *)
Definition TrimSpace {U : Unicode} (s : string) : string :=
  match skipSpace s with
  | EmptyString => EmptyString
  | String c _ as s1 =>
      if nonASCII c then trimFuncSpace s1
      else
        let s2 := dropSpaceRight s1 in
        match lastByte s2 with
        | Some d => if nonASCII d then trimRightFuncSpace s2 else s2
        | None => s2
        end
  end.

End strings.

Module strconv.

Definition digit (c : ascii) : option Z :=
  let n := N_of_ascii c in
  if ((48 <=? n) && (n <=? 57))%N then Some (Z.of_N n - 48) else None.

Definition maxUint64 : Z := 2 ^ 64 - 1.

(** the digit loop of [strconv.ParseUint(s, 10, 64)]; [cutoff] is
    [maxUint64/10 + 1], the products and sums of the [uint64] code are
    compared before they can wrap. *)
Fixpoint parseDigits (s : string) (n : Z) : result Z :=
  match s with
  | EmptyString => Ok n
  | String c s' =>
      match digit c with
      | None => Err ErrSyntax
      | Some d =>
          if maxUint64 / 10 + 1 <=? n then Err ErrRange
          else
            let n1 := n * 10 + d in
            if maxUint64 <? n1 then Err ErrRange else parseDigits s' n1
      end
  end.

Definition ParseUint (s : string) : result Z :=
  match s with
  | EmptyString => Err ErrSyntax
  | _ => parseDigits s 0
  end.

(** [strconv.ParseInt(s, 10, 64)] *)
Definition ParseInt (s : string) : result Z :=
  match s with
  | EmptyString => Err ErrSyntax
  | String c s' =>
      let '(neg, digits) :=
        if Ascii.eqb c "+" then (false, s')
        else if Ascii.eqb c "-" then (true, s')
        else (false, s) in
      match ParseUint digits with
      | Err e => Err e
      | Ok un =>
          let cutoff := 2 ^ 63 in
          if negb neg && (cutoff <=? un) then Err ErrRange
          else if neg && (cutoff <? un) then Err ErrRange
          else Ok (if neg then - un else un)
      end
  end.

(** [strconv.Itoa] and the verb [%v] on an [int] *)
Definition Itoa (n : Z) : string := NilZero.string_of_int (Z.to_int n).

End strconv.

(** ** Connection and readers

    The peer is modelled by the bytes it sends before closing its side
    ([inbound]) and by the number of bytes it accepts before writes start to
    fail ([quota]).  [calls] is the log of the calls made on the connection,
    [outbound] the bytes that reached the peer. *)
Module net.

Inductive Call : Type :=
  | CWrite (p : string)
  | CClose.

Record Conn : Type := {
  inbound : string;
  outbound : string;
  quota : nat;
  calls : list Call;
  closed : bool
}.

(** [c.Write(p)]: the bytes of [p] reach the peer as far as [quota]
    allows; a write that cannot be completed returns an error. *)
Definition Write (c : Conn) (p : string) : (nat * option error) * Conn :=
  let n := Nat.min (String.length p) (quota c) in
  ((n, if (String.length p <=? quota c)%nat then None else Some ErrShortWrite),
   {| inbound := inbound c;
      outbound := outbound c +:+ strings.slice p 0 n;
      quota := quota c - n;
      calls := calls c ++ [CWrite p];
      closed := closed c |}).

Definition Close (c : Conn) : Conn :=
  {| inbound := inbound c;
     outbound := outbound c;
     quota := quota c;
     calls := calls c ++ [CClose];
     closed := true |}.

End net.

(** [bufio.Reader]: the state of the reader is the part of the inbound
    stream that has not been consumed yet. *)
Module bufio.

Definition Reader : Type := string.

Definition NewReader (c : net.Conn) : Reader := net.inbound c.

(** [b.ReadString(delim)]: the bytes up to and including the first
    [delim]; when the stream ends first, what was read and [io.EOF]. *)
Definition ReadString (b : Reader) (delim : ascii)
  : (string * option error) * Reader :=
  match strings.IndexByte b delim with
  | Some i => ((strings.slice b 0 (i + 1), None), strings.sliceFrom b (i + 1))
  | None => ((b, Some EOF), EmptyString)
  end.

(** [b.Read(p)] with [len(p) = n].  A read that returns fewer bytes than
    [len(p)] although more are to come acts on the state like a read with
    a shorter [p]. *)
Definition Read (b : Reader) (n : nat) : (string * option error) * Reader :=
  match n with
  | O => ((EmptyString, None), b)
  | _ =>
      match b with
      | EmptyString => ((EmptyString, Some EOF), b)
      | _ => ((strings.slice b 0 n, None), strings.sliceFrom b n)
      end
  end.

End bufio.

Module io.

(** [io.LimitedReader{R: buf, N: n}]; [R] is the connection's one
    [bufio.Reader], which is passed to [Read] and returned by it. *)
Record LimitedReader : Type := { N : Z }.

Definition Read (l : LimitedReader) (n : nat) (b : bufio.Reader)
  : (string * option error) * LimitedReader * bufio.Reader :=
  if N l <=? 0 then ((EmptyString, Some EOF), l, b)
  else
    let n' := if N l <? Z.of_nat n then Z.to_nat (N l) else n in
    let '((data, err), b') := bufio.Read b n' in
    ((data, err), {| N := N l - Z.of_nat (String.length data) |}, b').

End io.

(** ** Package http *)

Definition http10 : string := "HTTP/1.0".
Definition http11 : string := "HTTP/1.1".

Definition statusTitles : gmap Z string :=
  list_to_map
    [ (200, "OK"); (201, "Created"); (202, "Accepted");
      (203, "Non-Authoritative Information"); (204, "No Content") ].

(** [Headers] is a map that was made ([serve] makes it before it calls the
    handler); a [nil] map is not modelled. *)
Module Response.
Record t : Type := {
  Status : Z;
  Headers : gmap string string;
  proto : string;
  buf : string
}.
End Response.

Module Request.
Record t : Type := {
  Method : string;
  URI : string;
  Proto : string;
  Headers : gmap string string;
  Body : io.LimitedReader
}.
End Request.

(** What the Go runtime decides: the order in which [range] visits a map
    and the formatted time of [time.Now()] at the [tick]-th response of a
    connection. *)
Class Runtime : Type := {
  mapRange : gmap string string → list (string * string);
  mapRange_perm : ∀ m, mapRange m ≡ₚ map_to_list m;
  timeNow : nat → string
}.

(** A handler runs against the request's [Body]: it reads from it any
    number of times and ends with the content of the [Response]. *)
Inductive Handling : Type :=
  | Return (res : Response.t)
  | ReadBody (len : nat) (k : string → option error → Handling).

Class Handler : Type := {
  ServeHTTP : Response.t → Request.t → Handling
}.

Record Handled : Type := {
  response : Response.t;
  yielded : string;          (* the bytes the Body gave to the handler *)
  body : io.LimitedReader;
  reader : bufio.Reader
}.

Fixpoint handle (p : Handling) (got : string) (l : io.LimitedReader)
    (b : bufio.Reader) : Handled :=
  match p with
  | Return res =>
      {| response := res; yielded := got; body := l; reader := b |}
  | ReadBody n k =>
      let '((data, err), l', b') := io.Read l n b in
      handle (k data err) (got +:+ data) l' b'
  end.

(** [res.Write(b)] *)
Definition Response_Write (res : Response.t) (b : string) : Response.t :=
  {| Response.Status := Response.Status res;
     Response.Headers := Response.Headers res;
     Response.proto := Response.proto res;
     Response.buf := Response.buf res +:+ b |}.

Definition headerLine (kv : string * string) : string :=
  kv.1 +:+ ": " +:+ kv.2 +:+ crlf.

Definition setHeaders (res : Response.t) (h : gmap string string) : Response.t :=
  {| Response.Status := Response.Status res;
     Response.Headers := h;
     Response.proto := Response.proto res;
     Response.buf := Response.buf res |}.

Definition writeHeadersTo {R : Runtime} (res : Response.t) (tick : nat) (w : net.Conn)
  : option error * Response.t * net.Conn :=
  match statusTitles !! Response.Status res with
  | None => (Some (ErrUnsupportedStatus (Response.Status res)), res, w)
  | Some statusText =>
      let h1 := <["Date" := timeNow tick]> (Response.Headers res) in
      let h2 :=
        <["Content-Length" :=
            strconv.Itoa (Z.of_nat (String.length (Response.buf res)))]> h1 in
      let headers :=
        Response.proto res +:+ " " +:+ strconv.Itoa (Response.Status res)
          +:+ " " +:+ statusText +:+ crlf in
      let headers :=
        fold_left (λ acc kv, acc +:+ headerLine kv) (mapRange h2) headers in
      let headers := headers +:+ crlf in
      let '((_, err), w') := net.Write w headers in
      (err, setHeaders res h2, w')
  end.

(** [res.buf.WriteTo(w)] of [bytes.Buffer]: nothing is written for an
    empty buffer; the buffer is advanced by what was written and reset
    when all of it was. *)
Definition Buffer_WriteTo (b : string) (w : net.Conn)
  : option error * string * net.Conn :=
  match b with
  | EmptyString => (None, EmptyString, w)
  | _ =>
      let '((m, e), w') := net.Write w b in
      match e with
      | Some e => (Some e, strings.sliceFrom b m, w')
      | None =>
          if (m =? String.length b)%nat then (None, EmptyString, w')
          else (Some ErrShortWrite, strings.sliceFrom b m, w')
      end
  end.

Definition writeTo {R : Runtime} (res : Response.t) (tick : nat) (w : net.Conn)
  : option error * Response.t * net.Conn :=
  match writeHeadersTo res tick w with
  | (Some err, res', w') => (Some err, res', w')
  | (None, res', w') =>
      let '(err, b', w'') := Buffer_WriteTo (Response.buf res') w' in
      (err,
       {| Response.Status := Response.Status res';
          Response.Headers := Response.Headers res';
          Response.proto := Response.proto res';
          Response.buf := b' |},
       w'')
  end.

(** [req.Headers[k]] read as a value: the empty string when [k] is absent *)
Definition header (h : gmap string string) (k : string) : string :=
  default EmptyString (h !! k).

Definition parseConnection {U : Unicode} (req : Request.t) : bool * bool :=
  let conn := strings.ToLower (header (Request.Headers req) "connection") in
  if String.eqb (Request.Proto req) http10 then
    if String.eqb conn "keep-alive" then (true, true) else (false, false)
  else if String.eqb (Request.Proto req) http11 then
    if String.eqb conn "close" then (false, true) else (false, false)
  else (false, false).

Definition parseRequestLine (ln : string) : string * string * string * bool :=
  match strings.Split ln " " with
  | [s0; s1; s2] => (s0, s1, s2, true)
  | _ => (EmptyString, EmptyString, EmptyString, false)
  end.

Definition parseHeaderLine {U : Unicode} (ln : string) : string * string * bool :=
  match strings.SplitN ln ":" 2 with
  | [s0; s1] => (strings.ToLower s0, strings.TrimSpace s1, true)
  | _ => (EmptyString, EmptyString, false)
  end.

Definition readHTTPLine (b : bufio.Reader) : result string * bufio.Reader :=
  match bufio.ReadString b LF with
  | ((_, Some err), b') => (Err err, b')
  | ((ln, None), b') => (Ok (strings.TrimSuffix ln crlf), b')
  end.

(** The header loop of [readRequest] (lines 200-213).  Every turn that
    does not leave the loop consumes at least the line feed of a line;
    [fuel] bounds the number of turns and [None] is the loop cut short. *)
Fixpoint readHeaders {U : Unicode} (fuel : nat) (b : bufio.Reader)
    (h : gmap string string)
  : option (result (gmap string string) * bufio.Reader) :=
  match fuel with
  | O => None
  | S fuel' =>
      match readHTTPLine b with
      | (Err err, b') => Some (Err err, b')
      | (Ok ln, b') =>
          if (String.length ln =? 0)%nat then Some (Ok h, b')
          else
            match parseHeaderLine ln with
            | (key, val, true) => readHeaders fuel' b' (<[key := val]> h)
            | (_, _, false) => readHeaders fuel' b' h
            end
      end
  end.

Definition readRequest {U : Unicode} (b : bufio.Reader)
  : option (result Request.t * bufio.Reader) :=
  let '(r0, b1) := readHTTPLine b in
  let line0 :=
    match r0 with
    | Ok ln0 =>
        match parseRequestLine ln0 with
        | (method, uri, proto, true) => Ok (method, uri, proto)
        | (_, _, _, false) => Err (ErrMalformedRequestLine ln0)
        end
    | Err _ => Ok (EmptyString, EmptyString, EmptyString)
    end in
  match line0 with
  | Err err => Some (Err err, b1)
  | Ok (method, uri, proto) =>
      match readHeaders (S (String.length b1)) b1 ∅ with
      | None => None
      | Some (Err err, b2) => Some (Err err, b2)
      | Some (Ok h, b2) =>
          let req cl :=
            {| Request.Method := method; Request.URI := uri;
               Request.Proto := proto; Request.Headers := h;
               Request.Body := {| io.N := cl |} |} in
          match h !! "content-length" with
          | None => Some (Ok (req 0), b2)
          | Some str =>
              match strconv.ParseInt str with
              | Err err => Some (Err err, b2)
              | Ok cl => Some (Ok (req cl), b2)
              end
          end
      end
  end.

Definition bad : string :=
  "HTTP/1.1 400 Bad Request" +:+ crlf +:+ "Connection: close" +:+ crlf +:+ crlf.

(** Lines 139-149 of [serve]: the decision on the connection and the fresh
    [Response] that is handed to the handler. *)
Definition newResponse {U : Unicode} (req : Request.t) : bool * Response.t :=
  let res :=
    {| Response.Status := 200; Response.Headers := ∅;
       Response.proto := Request.Proto req; Response.buf := EmptyString |} in
  let '(keepalive, echo) := parseConnection req in
  (keepalive,
   if echo
   then setHeaders res
          (<["Connection" := header (Request.Headers req) "connection"]>
             (Response.Headers res))
   else res).

(** The loop of [serve].  [tick] counts the requests served on the
    connection; [None] is the loop cut short by [fuel]. *)
Fixpoint serveLoop {U : Unicode} {R : Runtime} {Hd : Handler} (fuel tick : nat)
    (b : bufio.Reader) (netConn : net.Conn) : option net.Conn :=
  match fuel with
  | O => None
  | S fuel' =>
      match readRequest b with
      | None => None
      | Some (Err _, _) => Some (net.Write netConn bad).2
      | Some (Ok req, b1) =>
          let '(keepalive, res) := newResponse req in
          let hd := handle (ServeHTTP res req) EmptyString (Request.Body req) b1 in
          match writeTo (response hd) tick netConn with
          | (Some _, _, netConn') => Some netConn'
          | (None, _, netConn') =>
              if keepalive
              then serveLoop fuel' (S tick) (reader hd) netConn'
              else Some netConn'
          end
      end
  end.

(** [hc.serve()]; the deferred [Close] runs on every way out of the loop. *)
Definition serve {U : Unicode} {R : Runtime} {Hd : Handler} (netConn : net.Conn)
  : option net.Conn :=
  net.Close <$>
    serveLoop (S (String.length (net.inbound netConn))) 0
      (bufio.NewReader netConn) netConn.

(** ** Concrete collaborators

    Used where the development runs the server on a given connection. *)

(** Tables for text whose runes outside ASCII are neither letters with a
    case nor white space. *)
Definition asciiText : Unicode := {|
  mapToLower := strings.lowerBytes;
  trimFuncSpace s := strings.dropSpaceRight (strings.skipSpace s);
  trimRightFuncSpace := strings.dropSpaceRight
|}.

(** A runtime whose [range] visits a map in the order of [map_to_list] and
    whose clock stands still. *)
Definition fixedRuntime : Runtime := {|
  mapRange := map_to_list;
  mapRange_perm m := reflexivity (map_to_list m);
  timeNow _ := "Mon, 02 Jan 2006 15:04:05 GMT"
|}.

(** A handler that reads up to 64 bytes of the body and writes them back. *)
Definition echoHandler : Handler := {|
  ServeHTTP res req := ReadBody 64 (λ data _, Return (Response_Write res data))
|}.

(** A handler that answers with the status code 418, which has no title. *)
Definition teapotHandler : Handler := {|
  ServeHTTP res req :=
    Return {| Response.Status := 418;
              Response.Headers := Response.Headers res;
              Response.proto := Response.proto res;
              Response.buf := "short and stout" |}
|}.

(** A connection on which the peer sends [s] and accepts [q] bytes. *)
Definition dial (s : string) (q : nat) : net.Conn :=
  {| net.inbound := s; net.outbound := EmptyString; net.quota := q;
     net.calls := []; net.closed := false |}.

(** Requests and streams on which the server is run below. *)

Definition request (proto : string) (h : gmap string string) (cl : Z)
  : Request.t :=
  {| Request.Method := "GET"; Request.URI := "/"; Request.Proto := proto;
     Request.Headers := h; Request.Body := {| io.N := cl |} |}.

(** Two HTTP/1.1 requests one after the other, neither with a Connection
    header. *)
Definition twoRequests11 : string :=
  "GET /a HTTP/1.1" +:+ crlf +:+ crlf +:+ "GET /b HTTP/1.1" +:+ crlf +:+ crlf.

(** A request with a body of five bytes, followed at once by a second
    request. *)
Definition pipelined : string :=
  "POST /x HTTP/1.0" +:+ crlf +:+ "Connection: Keep-Alive" +:+ crlf
    +:+ "Content-Length: 5" +:+ crlf +:+ crlf
    +:+ "helloGET /y HTTP/1.0" +:+ crlf +:+ crlf.

(** A request line with one field, an HTTP/1.0 request whose
    Content-Length is no number, and a request line cut off by the end of
    the stream. *)
Definition oneField : string := "BOGUS" +:+ crlf +:+ crlf.
Definition badLength : string :=
  "GET / HTTP/1.0" +:+ crlf +:+ "Content-Length: five" +:+ crlf +:+ crlf.
Definition cutOff : string := "GET / HTT".

(** The HTTP/1.1 request for [uri] without headers. *)
Definition request11 (uri : string) : Request.t :=
  {| Request.Method := "GET"; Request.URI := uri; Request.Proto := "HTTP/1.1";
     Request.Headers := ∅; Request.Body := {| io.N := 0 |} |}.

(** One HTTP/1.0 request that asks to keep the connection, and nothing
    after it. *)
Definition keepAliveOnce : string :=
  "GET /k HTTP/1.0" +:+ crlf +:+ "Connection: keep-alive" +:+ crlf +:+ crlf.

Definition keepAliveRequest : Request.t :=
  {| Request.Method := "GET"; Request.URI := "/k"; Request.Proto := "HTTP/1.0";
     Request.Headers := {["connection" := "keep-alive"]};
     Request.Body := {| io.N := 0 |} |}.

(** A request whose Content-Length is negative, with bytes after it. *)
Definition negativeLength : string :=
  "POST /x HTTP/1.0" +:+ crlf +:+ "Content-Length: -5" +:+ crlf +:+ crlf
    +:+ "hello".

(** A response with a status code that has no title, and one that has. *)
Definition teapot : Response.t :=
  {| Response.Status := 418; Response.Headers := {["Date" := "yesterday"]};
     Response.proto := http11; Response.buf := "short and stout" |}.
Definition okResponse : Response.t :=
  {| Response.Status := 200;
     Response.Headers :=
       {["Date" := "yesterday"; "Content-Length" := "1000"]};
     Response.proto := http11; Response.buf := "hello" |}.

(** ** Texts and loop states used to state properties of the parser and
    of the loop *)

(** Lines 210-212 of [readRequest]: what one header line does to the map. *)
Definition storeHeader {U : Unicode} (h : gmap string string) (ln : string)
  : gmap string string :=
  match parseHeaderLine ln with
  | (key, val, true) => <[key := val]> h
  | (_, _, false) => h
  end.

(** A line that can stand in a header section: not empty, no line feed. *)
Definition wireLine (ln : string) : Prop :=
  ln ≠ EmptyString ∧ strings.IndexByte ln LF = None.

(** Header lines on the wire, each ended by CR LF. *)
Fixpoint headerText (lines : list string) : string :=
  match lines with
  | [] => EmptyString
  | ln :: lines' => ln +:+ crlf +:+ headerText lines'
  end.

(** A request on the wire up to and including the empty line. *)
Definition requestText (method uri proto : string) (lines : list string)
  : string :=
  (method +:+ " " +:+ uri +:+ " " +:+ proto) +:+ crlf
    +:+ headerText lines +:+ crlf.

(** The strings of a list one after the other. *)
Fixpoint concatAll (l : list string) : string :=
  match l with
  | [] => EmptyString
  | x :: l' => x +:+ concatAll l'
  end.

(** The loop of [serve] entered at the [tick]-th request with the stream
    at [b]. *)
Definition serveFrom {U : Unicode} {R : Runtime} {Hd : Handler} (tick : nat)
    (b : bufio.Reader) (netConn : net.Conn) : option net.Conn :=
  serveLoop (S (String.length b)) tick b netConn.

(** The header map that [writeHeadersTo] writes (lines 72-73) and the
    bytes it hands to [Write] (lines 76-80), for a status with the title
    [statusText]. *)
Definition injected {R : Runtime} (res : Response.t) (tick : nat)
  : gmap string string :=
  <["Content-Length" :=
      strconv.Itoa (Z.of_nat (String.length (Response.buf res)))]>
    (<["Date" := timeNow tick]> (Response.Headers res)).

Definition headBytes {R : Runtime} (res : Response.t) (tick : nat)
    (statusText : string) : string :=
  fold_left (λ acc kv, acc +:+ headerLine kv) (mapRange (injected res tick))
    (Response.proto res +:+ " " +:+ strconv.Itoa (Response.Status res)
       +:+ " " +:+ statusText +:+ crlf)
  +:+ crlf.

(** [w'] comes from [w] by calls of [Write] only: the peer's stream and the
    closed flag are as before, the log grew by writes, and what reached the
    peer was taken off the quota. *)
Definition writesOnly (w w' : net.Conn) : Prop :=
  net.inbound w' = net.inbound w ∧ net.closed w' = net.closed w ∧
  (∃ l, net.calls w' = net.calls w ++ l ∧ Forall (λ x, x ≠ net.CClose) l) ∧
  (∃ out, net.outbound w' = net.outbound w +:+ out ∧
          net.quota w = (net.quota w' + String.length out)%nat).

(** A handler that never reads the body and writes the request URI. *)
Definition uriHandler : Handler := {|
  ServeHTTP res req := Return (Response_Write res (Request.URI req))
|}.

(** * Facts about the string functions *)

Section StringFacts.

Implicit Types (s a b : string) (c : ascii).

Lemma append_cons c a b : String c a +:+ b = String c (a +:+ b).
Proof. reflexivity. Qed.

Lemma append_nil_l a : EmptyString +:+ a = a.
Proof. reflexivity. Qed.

Lemma append_nil_r a : a +:+ EmptyString = a.
Proof. induction a as [|c a IH]; [done|]. by rewrite append_cons, IH. Qed.

Lemma append_assoc a b s : (a +:+ b) +:+ s = a +:+ (b +:+ s).
Proof. induction a as [|c a IH]; [done|]. by rewrite !append_cons, IH. Qed.

Lemma length_append a b :
  String.length (a +:+ b) = (String.length a + String.length b)%nat.
Proof. induction a as [|c a IH]; [done|]. rewrite append_cons. simpl. by rewrite IH. Qed.

Lemma substring_0_0 s : String.substring 0 0 s = EmptyString.
Proof. by destruct s. Qed.

Lemma substring_whole s : String.substring 0 (String.length s) s = s.
Proof. induction s as [|c s IH]; [done|]. simpl. by rewrite IH. Qed.

Lemma substring_app_l a b :
  String.substring 0 (String.length a) (a +:+ b) = a.
Proof.
  induction a as [|c a IH]; [apply substring_0_0|].
  rewrite append_cons. simpl. by rewrite IH.
Qed.

Lemma substring_app_r a b k m :
  String.substring (String.length a + k) m (a +:+ b) = String.substring k m b.
Proof. induction a as [|c a IH]; [done|]. rewrite append_cons. simpl. apply IH. Qed.

(** [s = s[:n] + s[n:]] *)
Lemma slice_sliceFrom s n :
  strings.slice s 0 n +:+ strings.sliceFrom s n = s.
Proof.
  unfold strings.slice, strings.sliceFrom. rewrite Nat.sub_0_r.
  revert n. induction s as [|c s IH]; intros [|n]; simpl; try done.
  - by rewrite substring_whole.
  - rewrite append_cons. by rewrite IH.
Qed.

Lemma length_slice s n :
  (String.length (strings.slice s 0 n) = Nat.min n (String.length s))%nat.
Proof.
  unfold strings.slice. rewrite Nat.sub_0_r.
  revert n. induction s as [|c s IH]; intros [|n]; simpl; try done.
  by rewrite IH.
Qed.

Lemma length_sliceFrom s n :
  (String.length (strings.sliceFrom s n) = String.length s - n)%nat.
Proof.
  pose proof (f_equal String.length (slice_sliceFrom s n)) as H.
  rewrite length_append, length_slice in H. lia.
Qed.

Lemma slice_app_l a b : strings.slice (a +:+ b) 0 (String.length a) = a.
Proof. unfold strings.slice. rewrite Nat.sub_0_r. apply substring_app_l. Qed.

Lemma sliceFrom_app_r a b : strings.sliceFrom (a +:+ b) (String.length a) = b.
Proof.
  unfold strings.sliceFrom. rewrite length_append.
  replace (String.length a + String.length b - String.length a)%nat
    with (String.length b) by lia.
  rewrite <- (Nat.add_0_r (String.length a)) at 1.
  rewrite substring_app_r. apply substring_whole.
Qed.

Lemma sliceFrom_app_r_add a b k :
  strings.sliceFrom (a +:+ b) (String.length a + k) = strings.sliceFrom b k.
Proof.
  unfold strings.sliceFrom. rewrite length_append, substring_app_r.
  f_equal. lia.
Qed.

Lemma snoc_inj a b c d :
  a +:+ String c EmptyString = b +:+ String d EmptyString → a = b ∧ c = d.
Proof.
  revert b. induction a as [|x a IH]; intros [|y b] H.
  - by injection H.
  - rewrite append_cons in H. injection H as _ H. by destruct b.
  - rewrite append_cons in H. injection H as _ H. by destruct a.
  - rewrite !append_cons in H. injection H as -> H.
    destruct (IH _ H) as [-> ->]. done.
Qed.

(** *** [IndexByte] *)

Lemma IndexByte_app_None a b c :
  strings.IndexByte a c = None →
  strings.IndexByte (a +:+ String c b) c = Some (String.length a).
Proof.
  induction a as [|x a IH]; simpl; intros H.
  - by rewrite Ascii.eqb_refl.
  - destruct (Ascii.eqb x c); [done|].
    destruct (strings.IndexByte a c); [done|]. by rewrite IH.
Qed.

Lemma IndexByte_Some s c i :
  strings.IndexByte s c = Some i →
  ∃ a b, s = a +:+ String c b ∧ String.length a = i ∧
         strings.IndexByte a c = None.
Proof.
  revert i. induction s as [|x s IH]; simpl; intros i H; [done|].
  destruct (Ascii.eqb_spec x c) as [->|Hne].
  - injection H as <-. by exists EmptyString, s.
  - destruct (strings.IndexByte s c) as [j|] eqn:Hj; [|done].
    injection H as <-. destruct (IH j eq_refl) as (a & b & -> & <- & Ha).
    exists (String x a), b. split_and!; [done..|].
    simpl. destruct (Ascii.eqb_spec x c); [done|]. by rewrite Ha.
Qed.

Lemma Count_None s c : strings.IndexByte s c = None → strings.Count s c = O.
Proof.
  induction s as [|x s IH]; simpl; [done|].
  destruct (Ascii.eqb x c); [done|].
  destruct (strings.IndexByte s c); [done|]. auto.
Qed.

Lemma Count_cons_eq s c : strings.Count (String c s) c = S (strings.Count s c).
Proof. simpl. by rewrite Ascii.eqb_refl. Qed.

Lemma Count_app a b c :
  strings.Count (a +:+ b) c = (strings.Count a c + strings.Count b c)%nat.
Proof.
  induction a as [|x a IH]; [done|]. rewrite append_cons. simpl.
  destruct (Ascii.eqb x c); rewrite IH; done.
Qed.

(** *** Splitting *)

Lemma genSplit_None s c n :
  strings.IndexByte s c = None → strings.genSplit s c n = [s].
Proof. intros H. destruct n; simpl; [done|]. by rewrite H. Qed.

Lemma genSplit_cut a b c n :
  strings.IndexByte a c = None →
  strings.genSplit (a +:+ String c b) c (S n) = a :: strings.genSplit b c n.
Proof.
  intros H. simpl. rewrite (IndexByte_app_None _ _ _ H).
  rewrite slice_app_l. f_equal. f_equal.
  change (String c b) with (String c EmptyString +:+ b). rewrite <- append_assoc.
  replace (String.length a + 1)%nat with (String.length (a +:+ String c EmptyString)).
  - apply sliceFrom_app_r.
  - rewrite length_append. done.
Qed.

(** *** Suffixes *)

Lemma HasSuffix_app a b : strings.HasSuffix (a +:+ b) b = true.
Proof.
  unfold strings.HasSuffix. rewrite length_append.
  replace (String.length a + String.length b - String.length b)%nat
    with (String.length a) by lia.
  rewrite sliceFrom_app_r, String.eqb_refl.
  rewrite andb_true_r. apply Nat.leb_le. lia.
Qed.

Lemma HasSuffix_inv s b :
  strings.HasSuffix s b = true → ∃ a, s = a +:+ b.
Proof.
  unfold strings.HasSuffix. intros [_ H]%andb_true_iff.
  apply String.eqb_eq in H.
  exists (strings.slice s 0 (String.length s - String.length b)).
  rewrite <- H at 2. symmetry. apply slice_sliceFrom.
Qed.

Lemma TrimSuffix_app a b : strings.TrimSuffix (a +:+ b) b = a.
Proof.
  unfold strings.TrimSuffix. rewrite HasSuffix_app, length_append.
  replace (String.length a + String.length b - String.length b)%nat
    with (String.length a) by lia.
  apply slice_app_l.
Qed.

Lemma lastByte_snoc a c : strings.lastByte (a +:+ String c EmptyString) = Some c.
Proof.
  induction a as [|x a IH]; [done|]. rewrite append_cons.
  simpl. rewrite IH. by destruct a.
Qed.

(** A line that ends in a line feed not preceded by a carriage return
    does not end in CR LF. *)
Lemma TrimSuffix_lf a :
  strings.lastByte a ≠ Some CR →
  strings.TrimSuffix (a +:+ String LF EmptyString) crlf = a +:+ String LF EmptyString.
Proof.
  intros Hlast. unfold strings.TrimSuffix.
  destruct (strings.HasSuffix _ crlf) eqn:Hs; [|done].
  apply HasSuffix_inv in Hs as [p Hp]. exfalso. apply Hlast.
  unfold crlf in Hp. change (String CR (String LF EmptyString)) with
    (String CR EmptyString +:+ String LF EmptyString) in Hp.
  rewrite <- append_assoc in Hp. apply snoc_inj in Hp as [-> _].
  apply lastByte_snoc.
Qed.

End StringFacts.

(** * Reading lines *)

Section Lines.

Context {U : Unicode}.
Implicit Types (b l ln rest : string) (h : gmap string string).

Lemma IndexByte_app_neither a c x :
  strings.IndexByte a c = None → strings.IndexByte x c = None →
  strings.IndexByte (a +:+ x) c = None.
Proof.
  induction a as [|y a IH]; simpl; [done|]. intros Ha Hx.
  destruct (Ascii.eqb y c); [done|].
  destruct (strings.IndexByte a c); [done|]. by rewrite IH.
Qed.

Lemma ReadString_line l rest c :
  strings.IndexByte l c = None →
  bufio.ReadString (l +:+ String c rest) c = ((l +:+ String c EmptyString, None), rest).
Proof.
  intros Hl. unfold bufio.ReadString. rewrite (IndexByte_app_None _ _ _ Hl).
  change (String c rest) with (String c EmptyString +:+ rest). rewrite <- append_assoc.
  replace (String.length l + 1)%nat with (String.length (l +:+ String c EmptyString))
    by (rewrite length_append; done).
  by rewrite slice_app_l, sliceFrom_app_r.
Qed.

Lemma ReadString_inv b c ln err b' :
  bufio.ReadString b c = ((ln, err), b') →
  (err = None ∧ ∃ l, strings.IndexByte l c = None ∧
                     b = l +:+ String c b' ∧ ln = l +:+ String c EmptyString) ∨
  (err = Some EOF ∧ strings.IndexByte b c = None ∧ ln = b ∧ b' = EmptyString).
Proof.
  destruct (strings.IndexByte b c) as [i|] eqn:Hi.
  - destruct (IndexByte_Some _ _ _ Hi) as (l & y & -> & _ & Hl).
    rewrite (ReadString_line _ _ _ Hl). intros [= <- <- <-].
    left. split; [done|]. by exists l.
  - unfold bufio.ReadString. rewrite Hi. intros [= <- <- <-]. by right.
Qed.

Lemma readHTTPLine_line l rest :
  strings.IndexByte l LF = None →
  readHTTPLine (l +:+ String LF rest)
  = (Ok (strings.TrimSuffix (l +:+ String LF EmptyString) crlf), rest).
Proof. intros Hl. unfold readHTTPLine. by rewrite (ReadString_line _ _ _ Hl). Qed.

Lemma readHTTPLine_Ok_inv b ln b' :
  readHTTPLine b = (Ok ln, b') →
  ∃ l, strings.IndexByte l LF = None ∧ b = l +:+ String LF b' ∧
       ln = strings.TrimSuffix (l +:+ String LF EmptyString) crlf.
Proof.
  unfold readHTTPLine.
  destruct (bufio.ReadString b LF) as [[ln0 err] b0] eqn:Hr.
  apply ReadString_inv in Hr as [(-> & l & Hl & -> & ->)|(-> & _)].
  - intros [= <- <-]. by exists l.
  - done.
Qed.

Lemma readHTTPLine_Err_inv b e b' :
  readHTTPLine b = (Err e, b') →
  e = EOF ∧ b' = EmptyString ∧ strings.IndexByte b LF = None.
Proof.
  unfold readHTTPLine.
  destruct (bufio.ReadString b LF) as [[ln0 err] b0] eqn:Hr.
  apply ReadString_inv in Hr as [(-> & _)|(-> & Hb & _ & ->)]; [done|].
  by intros [= <- <-].
Qed.

(** A line that was read took at least its line feed off the stream. *)
Lemma readHTTPLine_shorter b ln b' :
  readHTTPLine b = (Ok ln, b') → (String.length b' < String.length b)%nat.
Proof.
  intros (l & _ & -> & _)%readHTTPLine_Ok_inv.
  rewrite length_append. simpl. lia.
Qed.

Lemma readHTTPLine_any_shorter b r b' :
  readHTTPLine b = (r, b') → (String.length b' ≤ String.length b)%nat.
Proof.
  destruct r as [ln|e]; intros Hr.
  - apply readHTTPLine_shorter in Hr. lia.
  - apply readHTTPLine_Err_inv in Hr as (_ & -> & _). simpl. lia.
Qed.

(** ** The header loop ends *)

Lemma readHeaders_S fuel b h :
  readHeaders (S fuel) b h
  = match readHTTPLine b with
    | (Err err, b') => Some (Err err, b')
    | (Ok ln, b') =>
        if (String.length ln =? 0)%nat then Some (Ok h, b')
        else
          match parseHeaderLine ln with
          | (key, val, true) => readHeaders fuel b' (<[key := val]> h)
          | (_, _, false) => readHeaders fuel b' h
          end
    end.
Proof. reflexivity. Qed.

Lemma readHeaders_total fuel b h :
  (String.length b < fuel)%nat → is_Some (readHeaders fuel b h).
Proof.
  revert b h. induction fuel as [|fuel IH]; intros b h Hlt; [lia|].
  simpl. destruct (readHTTPLine b) as [[ln|e] b'] eqn:Hr; [|by eexists].
  apply readHTTPLine_shorter in Hr.
  destruct (String.length ln =? 0)%nat; [by eexists|].
  destruct (parseHeaderLine ln) as [[key val] []]; apply IH; lia.
Qed.

Lemma readHeaders_shorter fuel b h r b' :
  readHeaders fuel b h = Some (r, b') →
  (String.length b' ≤ String.length b)%nat ∧
  (∀ h', r = Ok h' → (String.length b' < String.length b)%nat).
Proof.
  revert b h. induction fuel as [|fuel IH]; intros b h; simpl; [done|].
  destruct (readHTTPLine b) as [[ln|e] b0] eqn:Hr.
  - apply readHTTPLine_shorter in Hr.
    destruct (String.length ln =? 0)%nat.
    + intros [= <- <-]. split; [lia|]. intros; lia.
    + destruct (parseHeaderLine ln) as [[key val] []]; intros Hh;
        apply IH in Hh as [Hle Hlt]; (split; [lia|]);
        intros h' ->; specialize (Hlt h' eq_refl); lia.
  - apply readHTTPLine_any_shorter in Hr. intros [= <- <-].
    split; [lia|]. done.
Qed.

(** The result of the loop does not depend on the fuel it was given. *)
Lemma readHeaders_fuel fuel fuel' b h x :
  readHeaders fuel b h = Some x → (fuel ≤ fuel')%nat →
  readHeaders fuel' b h = Some x.
Proof.
  revert fuel' b h. induction fuel as [|fuel IH]; intros fuel' b h; [done|].
  destruct fuel' as [|fuel']; [lia|]. simpl. intros Hx Hle.
  destruct (readHTTPLine b) as [[ln|e] b0]; [|done].
  destruct (String.length ln =? 0)%nat; [done|].
  destruct (parseHeaderLine ln) as [[key val] []]; apply (IH fuel'); (done || lia).
Qed.

(** ** [readRequest] ends, and a request it returns was read off the stream *)

Lemma readRequest_total b : is_Some (readRequest b).
Proof.
  unfold readRequest. destruct (readHTTPLine b) as [r0 b1].
  match goal with |- context [match ?x with Ok _ => _ | Err _ => _ end] =>
    destruct x as [[[m u] p]|e] end; [|by eexists].
  destruct (readHeaders_total (S (String.length b1)) b1 ∅) as [[[h|e] b2] ->];
    [lia| |by eexists].
  destruct (h !! "content-length"); [|by eexists].
  destruct (strconv.ParseInt _); by eexists.
Qed.

Lemma readRequest_shorter b req b' :
  readRequest b = Some (Ok req, b') → (String.length b' < String.length b)%nat.
Proof.
  unfold readRequest. destruct (readHTTPLine b) as [r0 b1] eqn:Hr.
  apply readHTTPLine_any_shorter in Hr.
  match goal with |- context [match ?x with Ok _ => _ | Err _ => _ end] =>
    destruct x as [[[m u] p]|e] end; [|done].
  destruct (readHeaders _ b1 ∅) as [[[h|e] b2]|] eqn:Hh; [|done..].
  apply readHeaders_shorter in Hh as [_ Hlt]. specialize (Hlt h eq_refl).
  destruct (h !! "content-length").
  - destruct (strconv.ParseInt _); intros [= _ <-]; lia.
  - intros [= _ <-]; lia.
Qed.

End Lines.

(** * The request parser *)

Section Parser.

Context {U : Unicode}.
Implicit Types (b l ln rest : string) (h : gmap string string).

Lemma parseRequestLine_fields ln method uri proto :
  strings.Split ln " " = [method; uri; proto] →
  parseRequestLine ln = (method, uri, proto, true).
Proof. unfold parseRequestLine. by intros ->. Qed.

Lemma parseRequestLine_other ln :
  length (strings.Split ln " ") ≠ 3%nat →
  parseRequestLine ln = (EmptyString, EmptyString, EmptyString, false).
Proof.
  unfold parseRequestLine.
  destruct (strings.Split ln " ") as [|s0 [|s1 [|s2 [|s3 fs]]]]; simpl; done.
Qed.

(** A line ["M P V"] with exactly two spaces splits into its three fields. *)
Lemma Split_three method uri proto :
  strings.IndexByte method " " = None →
  strings.IndexByte uri " " = None →
  strings.IndexByte proto " " = None →
  strings.Split (method +:+ " " +:+ uri +:+ " " +:+ proto) " "
  = [method; uri; proto].
Proof.
  intros Hm Hu Hp. unfold strings.Split.
  change (" " +:+ uri +:+ " " +:+ proto)
    with (String " " (uri +:+ String " " proto)).
  rewrite Count_app, (Count_None _ _ Hm), Count_cons_eq.
  rewrite Count_app, (Count_None _ _ Hu), Count_cons_eq, (Count_None _ _ Hp).
  change (0 + S (0 + S 0))%nat with 2%nat.
  rewrite (genSplit_cut _ _ _ _ Hm), (genSplit_cut _ _ _ _ Hu).
  by rewrite (genSplit_None _ _ _ Hp).
Qed.

Lemma parseHeaderLine_colon K V :
  strings.IndexByte K ":" = None →
  parseHeaderLine (K +:+ String ":" V)
  = (strings.ToLower K, strings.TrimSpace V, true).
Proof.
  intros HK. unfold parseHeaderLine, strings.SplitN.
  rewrite (genSplit_cut _ _ _ _ HK). done.
Qed.

Lemma parseHeaderLine_no_colon ln :
  strings.IndexByte ln ":" = None → parseHeaderLine ln = (EmptyString, EmptyString, false).
Proof.
  intros Hln. unfold parseHeaderLine, strings.SplitN.
  by rewrite (genSplit_None _ _ _ Hln).
Qed.

Lemma length_app_cons_ne_0 K c V :
  (String.length (K +:+ String c V) =? 0)%nat = false.
Proof. apply Nat.eqb_neq. rewrite length_append. simpl. lia. Qed.

Lemma length_eqb_0_ne ln : ln ≠ EmptyString → (String.length ln =? 0)%nat = false.
Proof. by destruct ln. Qed.

(** C9: a request line that [strings.Split] cuts at its spaces into exactly
    three fields gives the method, the URI and the protocol version of the
    request, each equal to its field; a request line with any other number
    of fields makes [readRequest] fail with the malformed-request-line
    error, before any header is read. *)
Theorem readRequest_request_line b ln0 b1 :
  readHTTPLine b = (Ok ln0, b1) →
  (∀ method uri proto,
     strings.Split ln0 " " = [method; uri; proto] →
     parseRequestLine ln0 = (method, uri, proto, true) ∧
     (∀ req b', readRequest b = Some (Ok req, b') →
        Request.Method req = method ∧ Request.URI req = uri ∧
        Request.Proto req = proto) ∧
     (∀ h b2,
        readHeaders (S (String.length b1)) b1 ∅ = Some (Ok h, b2) →
        h !! "content-length" = None →
        readRequest b
        = Some (Ok {| Request.Method := method; Request.URI := uri;
                      Request.Proto := proto; Request.Headers := h;
                      Request.Body := {| io.N := 0 |} |}, b2))) ∧
  (length (strings.Split ln0 " ") ≠ 3%nat →
     parseRequestLine ln0 = (EmptyString, EmptyString, EmptyString, false) ∧
     readRequest b = Some (Err (ErrMalformedRequestLine ln0), b1)).
Proof.
  intros Hline. split.
  - intros method uri proto Hs.
    pose proof (parseRequestLine_fields _ _ _ _ Hs) as Hp.
    split; [done|]. unfold readRequest. rewrite Hline, Hp. split.
    + intros req b'.
      destruct (readHeaders _ b1 ∅) as [[[h|e] b2]|]; [|done..].
      destruct (h !! "content-length").
      * destruct (strconv.ParseInt _); [|done]. by intros [= <- _].
      * by intros [= <- _].
    + intros h b2 -> ->. done.
  - intros Hn. pose proof (parseRequestLine_other _ Hn) as Hp.
    split; [done|]. unfold readRequest. by rewrite Hline, Hp.
Qed.

(** C10: [readHTTPLine] removes the end of a line only when it is CR LF.
    A line that ends in LF alone comes back with its LF; the line ["\n"]
    has length 1, is not the empty line that ends the header section, and
    the header loop goes on after it without storing anything. *)
Theorem readHTTPLine_strips_only_crlf :
  (∀ l rest, strings.IndexByte l LF = None →
     readHTTPLine (l +:+ crlf +:+ rest) = (Ok l, rest)) ∧
  (∀ l rest, strings.IndexByte l LF = None → strings.lastByte l ≠ Some CR →
     readHTTPLine (l +:+ String LF rest) = (Ok (l +:+ String LF EmptyString), rest)) ∧
  (∀ rest, readHTTPLine (String LF rest) = (Ok (String LF EmptyString), rest)) ∧
  String.length (String LF EmptyString) = 1%nat ∧
  (∀ fuel rest h,
     readHeaders (S fuel) (String LF rest) h = readHeaders fuel rest h).
Proof.
  assert (∀ rest, readHTTPLine (String LF rest) = (Ok (String LF EmptyString), rest))
    as Hlf.
  { intros rest. apply (readHTTPLine_line EmptyString rest eq_refl). }
  split_and!; [| |done|done|].
  - intros l rest Hl.
    change (crlf +:+ rest) with (String CR EmptyString +:+ String LF rest).
    rewrite <- append_assoc, readHTTPLine_line.
    + rewrite append_assoc. change (String CR EmptyString +:+ String LF EmptyString) with crlf.
      by rewrite TrimSuffix_app.
    + by apply IndexByte_app_neither.
  - intros l rest Hl Hcr. rewrite (readHTTPLine_line _ _ Hl).
    by rewrite (TrimSuffix_lf _ Hcr).
  - intros fuel rest h. rewrite readHeaders_S, Hlf. done.
Qed.

(** C4, as the code has it: a header line with a colon is cut at its first
    colon only; the key is the part before it in lower case, not trimmed,
    and the value is the part after it, trimmed, with its own colons kept.
    The header loop stores that pair and goes on; a line without a colon is
    passed over, with no error and no entry. *)
Theorem parseHeaderLine_first_colon :
  (∀ K V, strings.IndexByte K ":" = None →
     parseHeaderLine (K +:+ String ":" V)
     = (strings.ToLower K, strings.TrimSpace V, true)) ∧
  (∀ ln, strings.IndexByte ln ":" = None →
     parseHeaderLine ln = (EmptyString, EmptyString, false)) ∧
  (∀ fuel b b' K V h,
     readHTTPLine b = (Ok (K +:+ String ":" V), b') →
     strings.IndexByte K ":" = None →
     readHeaders (S fuel) b h
     = readHeaders fuel b' (<[strings.ToLower K := strings.TrimSpace V]> h)) ∧
  (∀ fuel b b' ln h,
     readHTTPLine b = (Ok ln, b') → ln ≠ EmptyString →
     strings.IndexByte ln ":" = None →
     readHeaders (S fuel) b h = readHeaders fuel b' h).
Proof.
  split_and!.
  - apply parseHeaderLine_colon.
  - apply parseHeaderLine_no_colon.
  - intros fuel b b' K V h Hline HK.
    by rewrite readHeaders_S, Hline, length_app_cons_ne_0, (parseHeaderLine_colon _ _ HK).
  - intros fuel b b' ln h Hline Hne Hln.
    by rewrite readHeaders_S, Hline, (length_eqb_0_ne _ Hne), (parseHeaderLine_no_colon _ Hln).
Qed.

(** C8: once the header section is read, a request without a
    ["content-length"] header gets the body length 0, and a request whose
    ["content-length"] is not accepted by [strconv.ParseInt] in base 10
    makes [readRequest] fail with that error; the length of a request that
    is returned is always the parsed header or 0. *)
Theorem readRequest_content_length b r0 b1 h b2 :
  readHTTPLine b = (r0, b1) →
  (∀ ln0, r0 = Ok ln0 → length (strings.Split ln0 " ") = 3%nat) →
  readHeaders (S (String.length b1)) b1 ∅ = Some (Ok h, b2) →
  (h !! "content-length" = None →
     ∃ req, readRequest b = Some (Ok req, b2) ∧ Request.Headers req = h ∧
            io.N (Request.Body req) = 0) ∧
  (∀ str e, h !! "content-length" = Some str → strconv.ParseInt str = Err e →
     readRequest b = Some (Err e, b2)) ∧
  (∀ str cl, h !! "content-length" = Some str → strconv.ParseInt str = Ok cl →
     ∃ req, readRequest b = Some (Ok req, b2) ∧ Request.Headers req = h ∧
            io.N (Request.Body req) = cl).
Proof.
  intros Hline H3 Hh. unfold readRequest. rewrite Hline.
  assert (∃ m u p,
    match r0 with
    | Ok ln0 =>
        match parseRequestLine ln0 with
        | (method, uri, proto, true) => Ok (method, uri, proto)
        | (_, _, _, false) => Err (ErrMalformedRequestLine ln0)
        end
    | Err _ => Ok (EmptyString, EmptyString, EmptyString)
    end = Ok (m, u, p)) as (m & u & p & ->).
  { destruct r0 as [ln0|e]; [|by eexists _, _, _].
    specialize (H3 ln0 eq_refl). unfold parseRequestLine.
    destruct (strings.Split ln0 " ") as [|s0 [|s1 [|s2 [|s3 fs]]]];
      simpl in H3; try done. by eexists _, _, _. }
  rewrite Hh. split_and!.
  - intros ->. by eexists.
  - by intros str e -> ->.
  - intros str cl -> ->. by eexists.
Qed.

End Parser.

(** * The decision on the connection *)

Section Connection.

Context {U : Unicode}.

(** C2: for a request of version HTTP/1.0 the connection is kept alive and
    the request's Connection header is put into the response exactly when
    the lower-cased value of that header is ["keep-alive"]; otherwise the
    connection is not kept alive and the response starts without headers. *)
Theorem parseConnection_http10 (req : Request.t) :
  Request.Proto req = http10 →
  let conn := header (Request.Headers req) "connection" in
  (strings.ToLower conn = "keep-alive" →
     parseConnection req = (true, true) ∧
     newResponse req
     = (true, {| Response.Status := 200;
                 Response.Headers := {["Connection" := conn]};
                 Response.proto := http10; Response.buf := EmptyString |})) ∧
  (strings.ToLower conn ≠ "keep-alive" →
     parseConnection req = (false, false) ∧
     newResponse req
     = (false, {| Response.Status := 200; Response.Headers := ∅;
                  Response.proto := http10; Response.buf := EmptyString |})).
Proof.
  intros Hp conn. unfold newResponse, parseConnection. rewrite Hp. simpl.
  fold conn. split.
  - intros ->. simpl. split; [done|]. unfold setHeaders. simpl.
    by rewrite insert_empty.
  - intros Hne%String.eqb_neq. rewrite Hne. done.
Qed.

(** C1, what the code does: for a request of version HTTP/1.1
    [parseConnection] never answers keep-alive; the header is echoed
    exactly when its lower-cased value is ["close"]. *)
Theorem parseConnection_http11 (req : Request.t) :
  Request.Proto req = http11 →
  parseConnection req
  = (false,
     String.eqb (strings.ToLower (header (Request.Headers req) "connection"))
       "close").
Proof.
  intros Hp. unfold parseConnection. rewrite Hp. simpl.
  by destruct (String.eqb _ "close").
Qed.

End Connection.

(** * The body reader *)

Section Body.

Implicit Types (b : bufio.Reader) (l : io.LimitedReader) (p : Handling).

Lemma bufio_Read_inv b n data err b' :
  bufio.Read b n = ((data, err), b') →
  b = data +:+ b' ∧ (String.length data ≤ n)%nat.
Proof.
  unfold bufio.Read. destruct n as [|n].
  - intros [= <- _ <-]. simpl. split; [done|lia].
  - destruct b as [|c b].
    + intros [= <- _ <-]. simpl. split; [done|lia].
    + intros [= <- _ <-]. split.
      * symmetry. apply slice_sliceFrom.
      * rewrite length_slice. lia.
Qed.

Lemma io_Read_inv l n b data err l' b' :
  io.Read l n b = ((data, err), l', b') →
  b = data +:+ b' ∧
  (String.length data ≤ n)%nat ∧
  (String.length data ≤ Z.to_nat (io.N l))%nat ∧
  io.N l' = io.N l - Z.of_nat (String.length data).
Proof.
  unfold io.Read. destruct (Z.leb_spec (io.N l) 0) as [Hle|Hlt].
  - intros [= <- _ <- <-]. simpl. split_and!; [done|lia|lia|lia].
  - destruct (bufio.Read b _) as [[d e] b0] eqn:Hr.
    intros [= <- _ <- <-]. apply bufio_Read_inv in Hr as [-> Hlen].
    simpl. split_and!; [done| | |done].
    + destruct (Z.ltb_spec (io.N l) (Z.of_nat n)); lia.
    + destruct (Z.ltb_spec (io.N l) (Z.of_nat n)); lia.
Qed.

(** At the limit the reader answers end-of-stream and leaves the stream. *)
Lemma io_Read_exhausted l n b :
  io.N l ≤ 0 → io.Read l n b = ((EmptyString, Some EOF), l, b).
Proof. intros Hle. unfold io.Read. by destruct (Z.leb_spec (io.N l) 0); [|lia]. Qed.

Lemma handle_inv p got l b :
  let hd := handle p got l b in
  ∃ x, yielded hd = got +:+ x ∧ b = x +:+ reader hd ∧
       (String.length x ≤ Z.to_nat (io.N l))%nat ∧
       io.N (body hd) = io.N l - Z.of_nat (String.length x).
Proof.
  revert got l b. induction p as [res|n k IH]; intros got l b; simpl.
  - exists EmptyString. rewrite append_nil_r. simpl. split_and!; [done|done|lia|lia].
  - destruct (io.Read l n b) as [[[data err] l'] b'] eqn:Hr.
    apply io_Read_inv in Hr as (-> & _ & Hlen & HN).
    destruct (IH data err (got +:+ data) l' b') as (x & Hy & Hb & Hx & HN').
    exists (data +:+ x). rewrite Hy, append_assoc. split; [done|].
    rewrite append_assoc. rewrite <- Hb. split; [done|].
    rewrite length_append. split; lia.
Qed.

Lemma handle_shorter p got l b :
  (String.length (reader (handle p got l b)) ≤ String.length b)%nat.
Proof.
  destruct (handle_inv p got l b) as (x & _ & Hb & _).
  rewrite Hb at 2. rewrite length_append. lia.
Qed.

(** C6: the [Body] of a parsed request is limited to the Content-Length
    [n] that was parsed.  Whatever reads a handler makes, the bytes it is
    given are the first bytes of the connection's stream, at most [n] of
    them; the stream is left at the byte after them, so that all bytes
    beyond the first [n] are still to be read by the next parse; and once
    [n] bytes were given a read answers end-of-stream and takes nothing,
    whatever is left in the stream. *)
Theorem body_reader_bounded {U : Unicode} :
  (∀ b req b' str,
     readRequest b = Some (Ok req, b') →
     Request.Headers req !! "content-length" = Some str →
     strconv.ParseInt str = Ok (io.N (Request.Body req))) ∧
  (∀ p l b,
     let hd := handle p EmptyString l b in
     b = yielded hd +:+ reader hd ∧
     (String.length (yielded hd) ≤ Z.to_nat (io.N l))%nat ∧
     io.N (body hd) = io.N l - Z.of_nat (String.length (yielded hd)) ∧
     ∃ z, reader hd = z +:+ strings.sliceFrom b (Z.to_nat (io.N l))) ∧
  (∀ p l b m,
     let hd := handle p EmptyString l b in
     Z.of_nat (String.length (yielded hd)) = io.N l →
     io.Read (body hd) m (reader hd) = ((EmptyString, Some EOF), body hd, reader hd)) ∧
  (∀ l m b, io.N l ≤ 0 → io.Read l m b = ((EmptyString, Some EOF), l, b)).
Proof.
  split_and!.
  - intros b req b' str. unfold readRequest.
    destruct (readHTTPLine b) as [r0 b1].
    match goal with |- context [match ?x with Ok _ => _ | Err _ => _ end] =>
      destruct x as [[[m u] q]|e] end; [|done].
    destruct (readHeaders _ b1 ∅) as [[[h|e] b2]|]; [|done..].
    destruct (h !! "content-length") as [s|] eqn:Hcl.
    + destruct (strconv.ParseInt s) as [cl|e] eqn:Hp; [|done].
      intros [= <- _]. simpl. rewrite Hcl. by intros [= <-].
    + intros [= <- _]. simpl. by rewrite Hcl.
  - intros p l b hd.
    destruct (handle_inv p EmptyString l b) as (x & Hy & Hb & Hx & HN).
    fold hd in Hy, Hb, HN. rewrite append_nil_l in Hy. subst x.
    split_and!; [done..|].
    exists (strings.slice (reader hd) 0
              (Z.to_nat (io.N l) - String.length (yielded hd))).
    rewrite Hb at 1.
    replace (Z.to_nat (io.N l))
      with (String.length (yielded hd) +
            (Z.to_nat (io.N l) - String.length (yielded hd)))%nat at 2 by lia.
    rewrite sliceFrom_app_r_add. symmetry. apply slice_sliceFrom.
  - intros p l b m hd Hall.
    destruct (handle_inv p EmptyString l b) as (x & Hy & _ & _ & HN).
    fold hd in Hy, HN. rewrite append_nil_l in Hy. subst x.
    apply io_Read_exhausted. lia.
  - apply io_Read_exhausted.
Qed.

End Body.

(** * The response *)

Section Serialization.

Context {R : Runtime}.
Implicit Types (res : Response.t) (w : net.Conn).

Lemma slice_whole (p : string) : strings.slice p 0 (String.length p) = p.
Proof. unfold strings.slice. rewrite Nat.sub_0_r. apply substring_whole. Qed.

Lemma net_Write_ok w p :
  (String.length p ≤ net.quota w)%nat →
  net.Write w p
  = ((String.length p, None),
     {| net.inbound := net.inbound w;
        net.outbound := net.outbound w +:+ p;
        net.quota := net.quota w - String.length p;
        net.calls := net.calls w ++ [net.CWrite p];
        net.closed := net.closed w |}).
Proof.
  intros Hq. unfold net.Write.
  rewrite (Nat.min_l _ _ Hq), slice_whole.
  by destruct (Nat.leb_spec (String.length p) (net.quota w)); [|lia].
Qed.

Lemma Buffer_WriteTo_ok (b : string) w :
  (String.length b ≤ net.quota w)%nat →
  ∃ w', Buffer_WriteTo b w = (None, EmptyString, w') ∧
        net.outbound w' = net.outbound w +:+ b.
Proof.
  intros Hq. destruct b as [|c b].
  - exists w. by rewrite append_nil_r.
  - unfold Buffer_WriteTo. rewrite (net_Write_ok _ _ Hq), Nat.eqb_refl.
    by eexists.
Qed.

Lemma fold_headerLine_acc (hs : list (string * string)) (init : string) :
  fold_left (λ acc kv, acc +:+ headerLine kv) hs init
  = init +:+ fold_left (λ acc kv, acc +:+ headerLine kv) hs EmptyString.
Proof.
  revert init. induction hs as [|kv hs IH]; intros init; cbn [fold_left].
  - by rewrite append_nil_r.
  - rewrite IH, (IH (EmptyString +:+ headerLine kv)), append_nil_l. by rewrite append_assoc.
Qed.

Lemma fold_headerLine_elem (hs : list (string * string)) init k v :
  (k, v) ∈ hs →
  ∃ pre post,
    fold_left (λ acc kv, acc +:+ headerLine kv) hs init
    = pre +:+ k +:+ ": " +:+ v +:+ crlf +:+ post.
Proof.
  intros (l1 & l2 & ->)%list_elem_of_split.
  exists (fold_left (λ acc kv, acc +:+ headerLine kv) l1 init),
         (fold_left (λ acc kv, acc +:+ headerLine kv) l2 EmptyString).
  rewrite fold_left_app. cbn [fold_left]. rewrite fold_headerLine_acc.
  unfold headerLine at 2. cbn [fst snd]. by rewrite !append_assoc.
Qed.

Lemma writeHeadersTo_unsupported res tick w :
  statusTitles !! Response.Status res = None →
  writeHeadersTo res tick w
  = (Some (ErrUnsupportedStatus (Response.Status res)), res, w).
Proof. intros Hs. unfold writeHeadersTo. by rewrite Hs. Qed.

(** C7, as the code has it: when the status code of a response has a title,
    [writeTo] sets ["Date"] to the current time and ["Content-Length"] to
    the number of the buffered body bytes, whatever the handler had put
    under these names; each header of the map is written as its own line;
    and when the peer accepts the bytes, what reaches it is the status
    line, the header lines, an empty line and then exactly the buffered
    body bytes. *)
Theorem writeTo_injects_headers res tick w statusText :
  statusTitles !! Response.Status res = Some statusText →
  let n := String.length (Response.buf res) in
  let h2 :=
    <["Content-Length" := strconv.Itoa (Z.of_nat n)]>
      (<["Date" := timeNow tick]> (Response.Headers res)) in
  let head :=
    fold_left (λ acc kv, acc +:+ headerLine kv) (mapRange h2)
      (Response.proto res +:+ " " +:+ strconv.Itoa (Response.Status res)
         +:+ " " +:+ statusText +:+ crlf)
    +:+ crlf in
  Response.Headers (writeTo res tick w).1.2 = h2 ∧
  h2 !! "Date" = Some (timeNow tick) ∧
  h2 !! "Content-Length" = Some (strconv.Itoa (Z.of_nat n)) ∧
  (∀ k v, (k, v) ∈ mapRange h2 ↔ h2 !! k = Some v) ∧
  (∀ k v, h2 !! k = Some v →
     ∃ pre post, head = (pre +:+ k +:+ ": " +:+ v +:+ crlf +:+ post) +:+ crlf) ∧
  ((String.length head + n ≤ net.quota w)%nat →
     (writeTo res tick w).1.1 = None ∧
     net.outbound (writeTo res tick w).2
     = net.outbound w +:+ head +:+ Response.buf res).
Proof.
  intros Hs n h2 head.
  assert (∀ k v, (k, v) ∈ mapRange h2 ↔ h2 !! k = Some v) as Hrange.
  { intros k v. rewrite (mapRange_perm h2). apply elem_of_map_to_list. }
  assert (writeHeadersTo res tick w
          = ((net.Write w head).1.2, setHeaders res h2, (net.Write w head).2))
    as Hw.
  { unfold writeHeadersTo. rewrite Hs. fold n. fold h2. fold head. done. }
  split_and!.
  - unfold writeTo. rewrite Hw. simpl.
    by destruct (String.length head <=? net.quota w)%nat;
      [destruct (Buffer_WriteTo _ _) as [[??]?]|].
  - subst h2. rewrite lookup_insert_ne by done. apply lookup_insert_eq.
  - apply lookup_insert_eq.
  - done.
  - intros k v Hk%Hrange.
    destruct (fold_headerLine_elem _
                (Response.proto res +:+ " " +:+ strconv.Itoa (Response.Status res)
                   +:+ " " +:+ statusText +:+ crlf) _ _ Hk) as (pre & post & Hf).
    exists pre, post. subst head. by rewrite Hf.
  - intros Hq. unfold writeTo. rewrite Hw.
    rewrite net_Write_ok by lia. simpl.
    match goal with |- context [Buffer_WriteTo ?b ?w0] =>
      destruct (Buffer_WriteTo_ok b w0) as (w' & -> & Hout) end.
    { simpl. fold n. lia. }
    simpl. split; [done|]. rewrite Hout. simpl. by rewrite append_assoc.
Qed.

(** ** Responses with a status code that has no title *)

Lemma writeTo_unsupported res tick w :
  statusTitles !! Response.Status res = None →
  writeTo res tick w
  = (Some (ErrUnsupportedStatus (Response.Status res)), res, w).
Proof. intros Hs. unfold writeTo. by rewrite (writeHeadersTo_unsupported _ _ _ Hs). Qed.

End Serialization.

(** * The connection loop *)

Section Serve.

Context {U : Unicode} {R : Runtime} {Hd : Handler}.
Implicit Types (b : bufio.Reader) (w c : net.Conn).

Lemma serveLoop_S fuel tick b w :
  serveLoop (S fuel) tick b w
  = match readRequest b with
    | None => None
    | Some (Err _, _) => Some (net.Write w bad).2
    | Some (Ok req, b1) =>
        let '(keepalive, res) := newResponse req in
        let hd := handle (ServeHTTP res req) EmptyString (Request.Body req) b1 in
        match writeTo (response hd) tick w with
        | (Some _, _, w') => Some w'
        | (None, _, w') =>
            if keepalive then serveLoop fuel (S tick) (reader hd) w'
            else Some w'
        end
    end.
Proof. reflexivity. Qed.

(** The loop ends: every request that is served was read off the stream,
    so the length of the stream bounds the number of turns. *)
Lemma serveLoop_total fuel tick b w :
  (String.length b < fuel)%nat → is_Some (serveLoop fuel tick b w).
Proof.
  revert tick b w. induction fuel as [|fuel IH]; intros tick b w Hlt; [lia|].
  rewrite serveLoop_S.
  destruct (readRequest_total b) as [[[req|e] b1] Hr]; rewrite Hr; [|by eexists].
  apply readRequest_shorter in Hr.
  destruct (newResponse req) as [keepalive res].
  cbv zeta.
  pose proof (handle_shorter (ServeHTTP res req) EmptyString (Request.Body req) b1) as Hh.
  destruct (writeTo _ tick w) as [[[e|] res'] w']; [by eexists|].
  destruct keepalive; [|by eexists]. apply IH. lia.
Qed.

Lemma serve_total c : is_Some (serve c).
Proof.
  unfold serve.
  destruct (serveLoop_total (S (String.length (net.inbound c))) 0
              (bufio.NewReader c) c) as [c' ->]; [unfold bufio.NewReader; lia|].
  by eexists.
Qed.

(** C3: in every turn of the loop, when [readRequest] fails, whatever the
    error and whatever version the request line named, the one call made
    on the connection is a [Write] of the bytes
    ["HTTP/1.1 400 Bad Request\r\nConnection: close\r\n\r\n"], after which
    the loop is left and the connection closed; the peer receives these
    bytes when it accepts them. *)
Theorem serve_bad_request :
  bad = "HTTP/1.1 400 Bad Request" +:+ crlf +:+ "Connection: close" +:+ crlf
          +:+ crlf ∧
  (∀ fuel tick b w e b',
     readRequest b = Some (Err e, b') →
     serveLoop (S fuel) tick b w = Some (net.Write w bad).2 ∧
     net.calls (net.Write w bad).2 = net.calls w ++ [net.CWrite bad]) ∧
  (∀ c e b',
     readRequest (net.inbound c) = Some (Err e, b') →
     ∃ c', serve c = Some c' ∧
           net.calls c' = net.calls c ++ [net.CWrite bad; net.CClose] ∧
           net.closed c' = true ∧
           ((String.length bad ≤ net.quota c)%nat →
              net.outbound c' = net.outbound c +:+ bad)).
Proof.
  split_and!; [done| |].
  - intros fuel tick b w e b' Hr. rewrite serveLoop_S, Hr. done.
  - intros c e b' Hr. unfold serve. rewrite serveLoop_S.
    unfold bufio.NewReader. rewrite Hr. eexists. split; [done|].
    unfold net.Close, net.Write.
    cbn [snd net.calls net.closed net.outbound net.quota net.inbound].
    split_and!; [by rewrite <- List.app_assoc|done|].
    intros Hq. rewrite (Nat.min_l _ _ Hq). by rewrite slice_whole.
Qed.

(** C5: a response whose status code has no title makes [writeTo] fail
    before anything is written; the loop is then left with the connection
    as it was, and [serve] returns after closing it. *)
Theorem serve_unsupported_status :
  (∀ res tick w,
     statusTitles !! Response.Status res = None →
     writeTo res tick w
     = (Some (ErrUnsupportedStatus (Response.Status res)), res, w)) ∧
  (∀ fuel tick b w req b1,
     readRequest b = Some (Ok req, b1) →
     statusTitles !!
       Response.Status
         (response (handle (ServeHTTP (newResponse req).2 req) EmptyString
                      (Request.Body req) b1)) = None →
     serveLoop (S fuel) tick b w = Some w) ∧
  (∀ c req b1,
     readRequest (net.inbound c) = Some (Ok req, b1) →
     statusTitles !!
       Response.Status
         (response (handle (ServeHTTP (newResponse req).2 req) EmptyString
                      (Request.Body req) b1)) = None →
     serve c = Some (net.Close c)).
Proof.
  assert (∀ fuel tick b w req b1,
     readRequest b = Some (Ok req, b1) →
     statusTitles !!
       Response.Status
         (response (handle (ServeHTTP (newResponse req).2 req) EmptyString
                      (Request.Body req) b1)) = None →
     serveLoop (S fuel) tick b w = Some w) as Hloop.
  { intros fuel tick b w req b1 Hr Hs. rewrite serveLoop_S, Hr.
    destruct (newResponse req) as [keepalive res]. cbv zeta. simpl in Hs.
    by rewrite (writeTo_unsupported _ _ _ Hs). }
  split_and!; [apply writeTo_unsupported|done|].
  intros c req b1 Hr Hs. unfold serve, bufio.NewReader.
  by rewrite (Hloop _ _ _ _ _ _ Hr Hs).
Qed.

End Serve.

(** * Runs of the server on given connections *)

Section Runs.

Existing Instance asciiText.
Existing Instance fixedRuntime.

(** The three ways in which [readRequest] fails. *)
Example readRequest_failures :
  readRequest oneField = Some (Err (ErrMalformedRequestLine "BOGUS"), crlf) ∧
  readRequest badLength = Some (Err ErrSyntax, EmptyString) ∧
  readRequest cutOff = Some (Err EOF, EmptyString).
Proof. by vm_compute. Qed.

(** An HTTP/1.0 request that cannot be parsed is answered in HTTP/1.1. *)
Example serve_badLength :
  (λ c, (net.outbound c, net.calls c, net.closed c))
    <$> serve (Hd := echoHandler) (dial badLength 100)
  = Some (bad, [net.CWrite bad; net.CClose], true).
Proof. by vm_compute. Qed.

(** The second of two HTTP/1.1 requests is never read: one response is
    written and the connection closed. *)
Example serve_twoRequests11 :
  net.calls <$> serve (Hd := echoHandler) (dial twoRequests11 1000)
  = Some [net.CWrite
            ("HTTP/1.1 200 OK" +:+ crlf +:+ "Content-Length: 0" +:+ crlf
               +:+ "Date: Mon, 02 Jan 2006 15:04:05 GMT" +:+ crlf +:+ crlf);
          net.CClose].
Proof. by vm_compute. Qed.

(** The body of five bytes is given to the handler and the second request
    is parsed from the byte after it. *)
Example serve_pipelined :
  net.outbound <$> serve (Hd := echoHandler) (dial pipelined 1000)
  = Some ("HTTP/1.0 200 OK" +:+ crlf +:+ "Connection: Keep-Alive" +:+ crlf
            +:+ "Content-Length: 5" +:+ crlf
            +:+ "Date: Mon, 02 Jan 2006 15:04:05 GMT" +:+ crlf +:+ crlf
            +:+ "hello"
            +:+ "HTTP/1.0 200 OK" +:+ crlf +:+ "Content-Length: 0" +:+ crlf
            +:+ "Date: Mon, 02 Jan 2006 15:04:05 GMT" +:+ crlf +:+ crlf).
Proof. by vm_compute. Qed.

(** C1 at a request of version HTTP/1.1 without Connection header: the
    code answers [(false, false)] where keep-alive is called for. *)
Lemma parseConnection_http11_witness :
  Request.Proto (request "HTTP/1.1" ∅ 0) = http11 ∧
  parseConnection (request "HTTP/1.1" ∅ 0) = (false, false).
Proof.
  split; [reflexivity|].
  exact (parseConnection_http11 (request "HTTP/1.1" ∅ 0) eq_refl).
Defined.

Lemma parseConnection_http10_witness :
  Request.Proto (request "HTTP/1.0" {["connection" := "Keep-Alive"]} 0)
  = http10 ∧
  parseConnection (request "HTTP/1.0" {["connection" := "Keep-Alive"]} 0)
  = (true, true) ∧
  Response.Headers
    (newResponse (request "HTTP/1.0" {["connection" := "Keep-Alive"]} 0)).2
  !! "Connection" = Some "Keep-Alive".
Proof.
  split; [reflexivity|].
  destruct (parseConnection_http10
              (request "HTTP/1.0" {["connection" := "Keep-Alive"]} 0) eq_refl)
    as [Hkeep _].
  destruct (Hkeep eq_refl) as [Hp Hr]. split; [exact Hp|].
  rewrite Hr. reflexivity.
Defined.

Lemma serve_bad_request_witness :
  readRequest (net.inbound (dial oneField 100))
  = Some (Err (ErrMalformedRequestLine "BOGUS"), crlf) ∧
  ∃ c', serve (Hd := echoHandler) (dial oneField 100) = Some c' ∧
        net.calls c' = [net.CWrite bad; net.CClose] ∧
        net.closed c' = true ∧ net.outbound c' = bad.
Proof.
  assert (readRequest (net.inbound (dial oneField 100))
          = Some (Err (ErrMalformedRequestLine "BOGUS"), crlf)) as Hr
    by (vm_compute; reflexivity).
  split; [exact Hr|].
  destruct (serve_bad_request (Hd := echoHandler)) as (_ & _ & Hserve).
  destruct (Hserve _ _ _ Hr) as (c' & Hs & Hcalls & Hclosed & Hout).
  exists c'. split_and!; [exact Hs|exact Hcalls|exact Hclosed|].
  apply Hout. vm_compute. lia.
Defined.

(** C4 as stated fails on a header name with blanks around it: the stored
    key keeps them. *)
Lemma parseHeaderLine_key_not_trimmed :
  parseHeaderLine " Host : example.com" = (" host ", "example.com", true) ∧
  strings.ToLower (strings.TrimSpace " Host ") = "host" ∧
  (parseHeaderLine " Host : example.com").1.1
  ≠ strings.ToLower (strings.TrimSpace " Host ").
Proof. by vm_compute. Qed.

Lemma parseHeaderLine_first_colon_witness :
  strings.IndexByte " Host " ":" = None ∧
  strings.IndexByte "no colon here" ":" = None ∧
  parseHeaderLine " Host : a:b " = (" host ", "a:b", true) ∧
  parseHeaderLine "no colon here" = (EmptyString, EmptyString, false).
Proof.
  destruct parseHeaderLine_first_colon as (Hcolon & Hnone & _).
  split_and!; [reflexivity|reflexivity| |].
  - exact (Hcolon " Host " " a:b " eq_refl).
  - exact (Hnone "no colon here" eq_refl).
Defined.

Lemma serve_unsupported_status_witness :
  statusTitles !! Response.Status teapot = None ∧
  writeTo teapot 0 (dial EmptyString 100)
  = (Some (ErrUnsupportedStatus 418), teapot, dial EmptyString 100) ∧
  serve (Hd := teapotHandler) (dial twoRequests11 100)
  = Some (net.Close (dial twoRequests11 100)).
Proof.
  destruct (serve_unsupported_status (Hd := teapotHandler))
    as (Hwrite & _ & Hserve).
  split_and!; [reflexivity| |].
  - exact (Hwrite teapot 0%nat (dial EmptyString 100) eq_refl).
  - eapply Hserve; vm_compute; reflexivity.
Defined.

Lemma body_reader_bounded_witness :
  ∃ req b1,
    readRequest pipelined = Some (Ok req, b1) ∧
    Request.Headers req !! "content-length" = Some "5" ∧
    io.N (Request.Body req) = 5 ∧
    let hd := handle (ServeHTTP (Handler := echoHandler) (newResponse req).2 req)
                EmptyString (Request.Body req) b1 in
    yielded hd = "hello" ∧
    reader hd = "GET /y HTTP/1.0" +:+ crlf +:+ crlf ∧
    b1 = yielded hd +:+ reader hd ∧
    io.Read (body hd) 64 (reader hd) = ((EmptyString, Some EOF), body hd, reader hd).
Proof.
  destruct body_reader_bounded as (Hlen & Hread & Heof & _).
  destruct (readRequest pipelined) as [[[req|e] b1]|] eqn:Hr;
    [|discriminate Hr..].
  vm_compute in Hr. injection Hr as <- <-.
  eexists _, _. split; [reflexivity|].
  split; [vm_compute; reflexivity|]. split; [reflexivity|].
  match goal with |- let hd := handle ?p _ ?l ?b in _ =>
    pose proof (Hread p l b) as (Hb & _); pose proof (Heof p l b 64%nat) as He
  end.
  intros hd. split_and!; [vm_compute; reflexivity..|exact Hb|].
  apply He. vm_compute. reflexivity.
Defined.

(** C7 as stated fails on a response whose status code has no title:
    nothing is injected (the handler's Date stays, no Content-Length) and
    nothing is written.  It also fails when the peer stops accepting bytes:
    the headers are cut after ten bytes and the body is never written. *)
Lemma writeTo_teapot_injects_nothing :
  (Response.Headers (writeTo teapot 0 (dial EmptyString 100)).1.2 !! "Date"
   = Some "yesterday" ∧
   Response.Headers (writeTo teapot 0 (dial EmptyString 100)).1.2 !! "Content-Length"
   = None ∧
   net.outbound (writeTo teapot 0 (dial EmptyString 100)).2 = EmptyString ∧
   net.calls (writeTo teapot 0 (dial EmptyString 100)).2 = []) ∧
  ((writeTo okResponse 0 (dial EmptyString 10)).1.1 = Some ErrShortWrite ∧
   net.outbound (writeTo okResponse 0 (dial EmptyString 10)).2 = "HTTP/1.1 2").
Proof. by vm_compute. Qed.

Lemma writeTo_injects_headers_witness :
  statusTitles !! Response.Status okResponse = Some "OK" ∧
  Response.Headers (writeTo okResponse 0 (dial EmptyString 100)).1.2 !! "Date"
  = Some "Mon, 02 Jan 2006 15:04:05 GMT" ∧
  Response.Headers (writeTo okResponse 0 (dial EmptyString 100)).1.2
  !! "Content-Length" = Some "5" ∧
  net.outbound (writeTo okResponse 0 (dial EmptyString 100)).2
  = "HTTP/1.1 200 OK" +:+ crlf +:+ "Content-Length: 5" +:+ crlf
      +:+ "Date: Mon, 02 Jan 2006 15:04:05 GMT" +:+ crlf +:+ crlf +:+ "hello".
Proof.
  pose proof (writeTo_injects_headers okResponse 0 (dial EmptyString 100) "OK" eq_refl)
    as (Hh & Hdate & Hcl & _ & _ & Hout).
  split; [reflexivity|]. rewrite Hh. split; [exact Hdate|]. split; [exact Hcl|].
  destruct Hout as [_ ->]; [vm_compute; lia|]. vm_compute. reflexivity.
Defined.

Lemma readRequest_content_length_witness :
  readHTTPLine badLength
  = (Ok "GET / HTTP/1.0", "Content-Length: five" +:+ crlf +:+ crlf) ∧
  readHeaders 27 ("Content-Length: five" +:+ crlf +:+ crlf) ∅
  = Some (Ok {["content-length" := "five"]}, EmptyString) ∧
  strconv.ParseInt "five" = Err ErrSyntax ∧
  readRequest badLength = Some (Err ErrSyntax, EmptyString) ∧
  ∃ req, readRequest twoRequests11
         = Some (Ok req, "GET /b HTTP/1.1" +:+ crlf +:+ crlf) ∧
         Request.Headers req = ∅ ∧ io.N (Request.Body req) = 0.
Proof.
  assert (readHTTPLine badLength
          = (Ok "GET / HTTP/1.0", "Content-Length: five" +:+ crlf +:+ crlf))
    as Hline by (vm_compute; reflexivity).
  assert (readHeaders 27 ("Content-Length: five" +:+ crlf +:+ crlf) ∅
          = Some (Ok {["content-length" := "five"]}, EmptyString))
    as Hh by (vm_compute; reflexivity).
  split; [exact Hline|]. split; [exact Hh|]. split; [reflexivity|]. split.
  - destruct (readRequest_content_length badLength _ _
                {["content-length" := "five"]} EmptyString Hline) as (_ & Hbad & _).
    + intros ln0 [= <-]. reflexivity.
    + exact Hh.
    + exact (Hbad "five" ErrSyntax eq_refl eq_refl).
  - destruct (readRequest_content_length twoRequests11
                (Ok "GET /a HTTP/1.1")
                (crlf +:+ "GET /b HTTP/1.1" +:+ crlf +:+ crlf) ∅
                ("GET /b HTTP/1.1" +:+ crlf +:+ crlf)) as (Hnone & _).
    + vm_compute. reflexivity.
    + intros ln0 [= <-]. reflexivity.
    + vm_compute. reflexivity.
    + exact (Hnone eq_refl).
Defined.

Lemma readRequest_request_line_witness :
  readHTTPLine twoRequests11
  = (Ok "GET /a HTTP/1.1", crlf +:+ "GET /b HTTP/1.1" +:+ crlf +:+ crlf) ∧
  strings.Split "GET /a HTTP/1.1" " " = ["GET"; "/a"; "HTTP/1.1"] ∧
  readRequest twoRequests11
  = Some (Ok {| Request.Method := "GET"; Request.URI := "/a";
                Request.Proto := "HTTP/1.1"; Request.Headers := ∅;
                Request.Body := {| io.N := 0 |} |},
          "GET /b HTTP/1.1" +:+ crlf +:+ crlf) ∧
  readHTTPLine oneField = (Ok "BOGUS", crlf) ∧
  length (strings.Split "BOGUS" " ") ≠ 3%nat ∧
  readRequest oneField = Some (Err (ErrMalformedRequestLine "BOGUS"), crlf).
Proof.
  assert (readHTTPLine twoRequests11
          = (Ok "GET /a HTTP/1.1", crlf +:+ "GET /b HTTP/1.1" +:+ crlf +:+ crlf))
    as H2 by (vm_compute; reflexivity).
  assert (readHTTPLine oneField = (Ok "BOGUS", crlf)) as H1
    by (vm_compute; reflexivity).
  split; [exact H2|]. split; [reflexivity|]. split.
  - destruct (readRequest_request_line _ _ _ H2) as [H3 _].
    destruct (H3 "GET" "/a" "HTTP/1.1" eq_refl) as (_ & _ & Hreq).
    apply Hreq; vm_compute; reflexivity.
  - split; [exact H1|]. split; [vm_compute; lia|].
    destruct (readRequest_request_line _ _ _ H1) as [_ Hn].
    apply Hn. vm_compute. lia.
Defined.

Lemma readHTTPLine_strips_only_crlf_witness :
  strings.IndexByte "Host: a" LF = None ∧
  strings.lastByte "Host: a" ≠ Some CR ∧
  readHTTPLine ("Host: a" +:+ crlf +:+ "rest") = (Ok "Host: a", "rest") ∧
  readHTTPLine ("Host: a" +:+ String LF "rest")
  = (Ok ("Host: a" +:+ String LF EmptyString), "rest") ∧
  readHeaders 2 (String LF crlf) ∅ = Some (Ok ∅, EmptyString).
Proof.
  destruct readHTTPLine_strips_only_crlf as (Hcrlf & Hlf & _ & _ & Hloop).
  split; [reflexivity|]. split; [discriminate|]. split_and!.
  - exact (Hcrlf "Host: a" "rest" eq_refl).
  - apply (Hlf "Host: a" "rest" eq_refl). discriminate.
  - rewrite Hloop. vm_compute. reflexivity.
Defined.

End Runs.

(** * More on the request parser *)

Section RequestTexts.

Context {U : Unicode}.
Implicit Types (b l ln rest tail : string) (h : gmap string string).
Implicit Types (lines pre post : list string).

Lemma readHTTPLine_crlf l rest :
  strings.IndexByte l LF = None →
  readHTTPLine (l +:+ crlf +:+ rest) = (Ok l, rest).
Proof.
  intros Hl.
  change (crlf +:+ rest) with (String CR EmptyString +:+ String LF rest).
  rewrite <- append_assoc, readHTTPLine_line.
  - rewrite append_assoc.
    change (String CR EmptyString +:+ String LF EmptyString) with crlf.
    by rewrite TrimSuffix_app.
  - by apply IndexByte_app_neither.
Qed.

Lemma readHTTPLine_none b :
  strings.IndexByte b LF = None → readHTTPLine b = (Err EOF, EmptyString).
Proof. intros Hb. unfold readHTTPLine, bufio.ReadString. by rewrite Hb. Qed.

Lemma readHeaders_store fuel b b' ln h :
  readHTTPLine b = (Ok ln, b') → ln ≠ EmptyString →
  readHeaders (S fuel) b h = readHeaders fuel b' (storeHeader h ln).
Proof.
  intros Hline Hne. rewrite readHeaders_S, Hline, (length_eqb_0_ne _ Hne).
  unfold storeHeader. by destruct (parseHeaderLine ln) as [[key val] []].
Qed.

Lemma headerText_cons_app ln lines rest :
  headerText (ln :: lines) +:+ rest
  = ln +:+ crlf +:+ (headerText lines +:+ rest).
Proof. cbn [headerText]. by rewrite !append_assoc. Qed.

Lemma length_headerText lines :
  (length lines ≤ String.length (headerText lines))%nat.
Proof.
  induction lines as [|ln lines IH]; cbn [headerText length]; [lia|].
  rewrite !length_append. change (String.length crlf) with 2%nat. lia.
Qed.

Lemma readHeaders_fold lines rest h fuel :
  Forall wireLine lines → (length lines < fuel)%nat →
  readHeaders fuel (headerText lines +:+ crlf +:+ rest) h
  = Some (Ok (fold_left storeHeader lines h), rest).
Proof.
  intros Hlines. revert h fuel.
  induction Hlines as [|ln lines [Hne Hlf] _ IH]; intros h fuel Hfuel;
    (destruct fuel as [|fuel]; [cbn [length] in Hfuel; lia|]).
  - cbn [headerText fold_left]. rewrite readHeaders_S.
    by rewrite (readHTTPLine_crlf EmptyString rest eq_refl).
  - rewrite headerText_cons_app.
    rewrite (readHeaders_store _ _ _ _ _ (readHTTPLine_crlf _ _ Hlf) Hne).
    cbn [fold_left]. apply IH. cbn [length] in Hfuel. lia.
Qed.

Lemma readHeaders_cut_off lines tail h fuel :
  Forall wireLine lines → strings.IndexByte tail LF = None →
  (length lines < fuel)%nat →
  readHeaders fuel (headerText lines +:+ tail) h = Some (Err EOF, EmptyString).
Proof.
  intros Hlines Htail. revert h fuel.
  induction Hlines as [|ln lines [Hne Hlf] _ IH]; intros h fuel Hfuel;
    (destruct fuel as [|fuel]; [cbn [length] in Hfuel; lia|]).
  - cbn [headerText]. rewrite append_nil_l, readHeaders_S.
    by rewrite (readHTTPLine_none _ Htail).
  - rewrite headerText_cons_app.
    rewrite (readHeaders_store _ _ _ _ _ (readHTTPLine_crlf _ _ Hlf) Hne).
    apply IH. cbn [length] in Hfuel. lia.
Qed.

Lemma IndexByte_cons_ne a c s :
  a ≠ c → strings.IndexByte s c = None →
  strings.IndexByte (String a s) c = None.
Proof.
  intros Hne Hs. simpl. destruct (Ascii.eqb_spec a c); [done|]. by rewrite Hs.
Qed.

Lemma requestLine_no_LF method uri proto :
  strings.IndexByte method LF = None → strings.IndexByte uri LF = None →
  strings.IndexByte proto LF = None →
  strings.IndexByte (method +:+ " " +:+ uri +:+ " " +:+ proto) LF = None.
Proof.
  intros Hm Hu Hp. apply IndexByte_app_neither; [done|].
  apply IndexByte_cons_ne; [done|].
  apply IndexByte_app_neither; [done|].
  by apply IndexByte_cons_ne.
Qed.

(** [readRequest] on a first line with three fields followed by anything. *)
Lemma readRequest_line0 ln0 method uri proto b1 :
  strings.Split ln0 " " = [method; uri; proto] →
  strings.IndexByte ln0 LF = None →
  readRequest (ln0 +:+ crlf +:+ b1)
  = match readHeaders (S (String.length b1)) b1 ∅ with
    | None => None
    | Some (Err err, b2) => Some (Err err, b2)
    | Some (Ok h, b2) =>
        match h !! "content-length" with
        | None =>
            Some (Ok {| Request.Method := method; Request.URI := uri;
                        Request.Proto := proto; Request.Headers := h;
                        Request.Body := {| io.N := 0 |} |}, b2)
        | Some str =>
            match strconv.ParseInt str with
            | Err err => Some (Err err, b2)
            | Ok cl =>
                Some (Ok {| Request.Method := method; Request.URI := uri;
                            Request.Proto := proto; Request.Headers := h;
                            Request.Body := {| io.N := cl |} |}, b2)
            end
        end
    end.
Proof.
  intros Hs Hlf. unfold readRequest.
  by rewrite (readHTTPLine_crlf _ _ Hlf), (parseRequestLine_fields _ _ _ _ Hs).
Qed.

(** X1: a request on the wire is read back.  For a request line ["M P V"]
    whose fields hold neither space nor line feed, followed by header lines
    and the empty line, [readRequest] returns method, URI and version as
    sent, the headers stored line by line in the order sent, and leaves the
    stream just after the empty line; the body length is the parsed
    ["content-length"] entry, 0 without one. *)
Theorem readRequest_requestText method uri proto lines rest :
  strings.IndexByte method " " = None → strings.IndexByte method LF = None →
  strings.IndexByte uri " " = None → strings.IndexByte uri LF = None →
  strings.IndexByte proto " " = None → strings.IndexByte proto LF = None →
  Forall wireLine lines →
  let h := fold_left storeHeader lines ∅ in
  let req cl :=
    {| Request.Method := method; Request.URI := uri; Request.Proto := proto;
       Request.Headers := h; Request.Body := {| io.N := cl |} |} in
  readRequest (requestText method uri proto lines +:+ rest)
  = match h !! "content-length" with
    | None => Some (Ok (req 0), rest)
    | Some str =>
        match strconv.ParseInt str with
        | Ok cl => Some (Ok (req cl), rest)
        | Err err => Some (Err err, rest)
        end
    end.
Proof.
  intros Hm Hm' Hu Hu' Hp Hp' Hlines h req.
  pose proof (Split_three _ _ _ Hm Hu Hp) as Hs.
  pose proof (requestLine_no_LF _ _ _ Hm' Hu' Hp') as Hlf.
  unfold requestText. revert Hs Hlf.
  generalize (method +:+ " " +:+ uri +:+ " " +:+ proto). intros ln0 Hs Hlf.
  rewrite !append_assoc, (readRequest_line0 _ _ _ _ _ Hs Hlf).
  rewrite readHeaders_fold; [|done|].
  - fold h. destruct (h !! "content-length") as [str|]; [|done].
    by destruct (strconv.ParseInt str).
  - pose proof (length_headerText lines). rewrite length_append. lia.
Qed.

Lemma fold_storeHeader_other post h key :
  Forall (λ ln, ∀ k v, parseHeaderLine ln = (k, v, true) → k ≠ key) post →
  fold_left storeHeader post h !! key = h !! key.
Proof.
  intros Hpost. revert h.
  induction Hpost as [|ln post Hln _ IH]; intros h; cbn [fold_left]; [done|].
  rewrite IH. unfold storeHeader.
  destruct (parseHeaderLine ln) as [[k v] []] eqn:Hp; [|done].
  rewrite lookup_insert_ne; [done|]. by apply (Hln k v).
Qed.

(** X2: of several header lines with the same lower-cased name the last
    one wins: the value stored under the name is that of the last line
    that has it, whatever lines came before. *)
Theorem readHeaders_last_wins pre K V post rest h fuel :
  Forall wireLine (pre ++ (K +:+ String ":" V) :: post) →
  strings.IndexByte K ":" = None →
  Forall (λ ln, ∀ k v, parseHeaderLine ln = (k, v, true) →
                       k ≠ strings.ToLower K) post →
  (length (pre ++ (K +:+ String ":" V) :: post) < fuel)%nat →
  ∃ h',
    readHeaders fuel
      (headerText (pre ++ (K +:+ String ":" V) :: post) +:+ crlf +:+ rest) h
    = Some (Ok h', rest) ∧
    h' !! strings.ToLower K = Some (strings.TrimSpace V).
Proof.
  intros Hlines HK Hpost Hfuel. eexists. split.
  - by apply readHeaders_fold.
  - rewrite fold_left_app. cbn [fold_left].
    rewrite (fold_storeHeader_other _ _ _ Hpost). unfold storeHeader.
    rewrite (parseHeaderLine_colon _ _ HK). apply lookup_insert_eq.
Qed.

(** X3: a stream that ends inside the header section, after a good
    request line and any number of header lines, makes [readRequest] fail
    with [io.EOF]; the whole stream is consumed. *)
Theorem readRequest_cut_off method uri proto lines tail :
  strings.IndexByte method " " = None → strings.IndexByte method LF = None →
  strings.IndexByte uri " " = None → strings.IndexByte uri LF = None →
  strings.IndexByte proto " " = None → strings.IndexByte proto LF = None →
  Forall wireLine lines → strings.IndexByte tail LF = None →
  readRequest
    ((method +:+ " " +:+ uri +:+ " " +:+ proto) +:+ crlf
       +:+ headerText lines +:+ tail)
  = Some (Err EOF, EmptyString).
Proof.
  intros Hm Hm' Hu Hu' Hp Hp' Hlines Htail.
  pose proof (Split_three _ _ _ Hm Hu Hp) as Hs.
  pose proof (requestLine_no_LF _ _ _ Hm' Hu' Hp') as Hlf.
  rewrite (readRequest_line0 _ _ _ _ _ Hs Hlf).
  rewrite readHeaders_cut_off; [done..|].
  pose proof (length_headerText lines). rewrite length_append. lia.
Qed.

(** ** What [readRequest] looks at *)

Lemma readHTTPLine_frame b ln b' :
  readHTTPLine b = (Ok ln, b') →
  ∃ c, b = c +:+ b' ∧ c ≠ EmptyString ∧
       ∀ rest, readHTTPLine (c +:+ rest) = (Ok ln, rest).
Proof.
  intros (l & Hl & -> & ->)%readHTTPLine_Ok_inv.
  exists (l +:+ String LF EmptyString). split_and!.
  - by rewrite append_assoc.
  - by destruct l.
  - intros rest. rewrite append_assoc. apply (readHTTPLine_line _ _ Hl).
Qed.

Lemma readHeaders_frame fuel b h h' b' :
  readHeaders fuel b h = Some (Ok h', b') →
  ∃ c, b = c +:+ b' ∧
       ∀ rest, readHeaders fuel (c +:+ rest) h = Some (Ok h', rest).
Proof.
  revert b h. induction fuel as [|fuel IH]; intros b h; [done|].
  rewrite readHeaders_S.
  destruct (readHTTPLine b) as [[ln|e] b0] eqn:Hline; [|done].
  destruct (readHTTPLine_frame _ _ _ Hline) as (c0 & -> & _ & Hc0).
  destruct (String.length ln =? 0)%nat eqn:Hlen.
  - intros [= <- <-]. exists c0. split; [done|]. intros rest.
    by rewrite readHeaders_S, Hc0, Hlen.
  - destruct (parseHeaderLine ln) as [[key val] []] eqn:Hp;
      intros (c1 & -> & Hc1)%IH; exists (c0 +:+ c1);
      (split; [by rewrite append_assoc|]); intros rest;
      by rewrite append_assoc, readHeaders_S, Hc0, Hlen, Hp.
Qed.

Lemma readHeaders_fuel_agree f1 f2 b h x :
  readHeaders f1 b h = Some x → (String.length b < f2)%nat →
  readHeaders f2 b h = Some x.
Proof.
  intros H1 Hlt. destruct (readHeaders_total f2 b h Hlt) as [y H2].
  pose proof (readHeaders_fuel _ (Nat.max f1 f2) _ _ _ H1 (Nat.le_max_l _ _)) as E1.
  pose proof (readHeaders_fuel _ (Nat.max f1 f2) _ _ _ H2 (Nat.le_max_r _ _)) as E2.
  rewrite H2. congruence.
Qed.

(** X4: [readRequest] looks at the stream up to the empty line and no
    further.  When it returns a request, the bytes it took are a non-empty
    beginning of the stream, and it returns the same request on these bytes
    followed by anything else: no byte of the body has to be there. *)
Theorem readRequest_frame b req b' :
  readRequest b = Some (Ok req, b') →
  ∃ c, b = c +:+ b' ∧ c ≠ EmptyString ∧
       ∀ rest, readRequest (c +:+ rest) = Some (Ok req, rest).
Proof.
  unfold readRequest at 1.
  destruct (readHTTPLine b) as [[ln0|e] b1] eqn:Hline.
  - destruct (readHTTPLine_frame _ _ _ Hline) as (c0 & -> & Hne & Hc0).
    destruct (parseRequestLine ln0) as [[[m u] p] []] eqn:Hp; [|done].
    destruct (readHeaders _ b1 ∅) as [[[h|e] b2]|] eqn:Hh; [|done..].
    destruct (readHeaders_frame _ _ _ _ _ Hh) as (c1 & -> & Hc1).
    intros Hreq.
    assert (b' = b2 ∧
            ∀ rest, readRequest (c0 +:+ c1 +:+ rest) = Some (Ok req, rest))
      as [-> Hrest].
    { assert (∀ rest, readRequest (c0 +:+ c1 +:+ rest)
                = match h !! "content-length" with
                  | None =>
                      Some (Ok {| Request.Method := m; Request.URI := u;
                                  Request.Proto := p; Request.Headers := h;
                                  Request.Body := {| io.N := 0 |} |}, rest)
                  | Some str =>
                      match strconv.ParseInt str with
                      | Err err => Some (Err err, rest)
                      | Ok cl =>
                          Some (Ok {| Request.Method := m; Request.URI := u;
                                      Request.Proto := p; Request.Headers := h;
                                      Request.Body := {| io.N := cl |} |}, rest)
                      end
                  end) as Hunfold.
      { intros rest. unfold readRequest. rewrite Hc0, Hp.
        by rewrite (readHeaders_fuel_agree _
                      (S (String.length (c1 +:+ rest))) _ _ _ (Hc1 rest)) by lia. }
      destruct (h !! "content-length") as [str|].
      - destruct (strconv.ParseInt str); [|done].
        injection Hreq as <- <-. split; [done|]. intros rest. by rewrite Hunfold.
      - injection Hreq as <- <-. split; [done|]. intros rest. by rewrite Hunfold. }
    exists (c0 +:+ c1). split_and!.
    + by rewrite append_assoc.
    + by destruct c0.
    + intros rest. rewrite append_assoc. apply Hrest.
  - apply readHTTPLine_Err_inv in Hline as (_ & -> & _). done.
Qed.

(** ** Request lines *)

Lemma Count_0_None s c : strings.Count s c = O → strings.IndexByte s c = None.
Proof.
  induction s as [|x s IH]; simpl; [done|].
  destruct (Ascii.eqb x c); [done|]. intros Hc. by rewrite IH.
Qed.

Lemma Count_cut a b c :
  strings.IndexByte a c = None →
  strings.Count (a +:+ String c b) c = S (strings.Count b c).
Proof. intros Ha. by rewrite Count_app, (Count_None _ _ Ha), Count_cons_eq. Qed.

Lemma genSplit_ne_nil s c n : strings.genSplit s c n ≠ [].
Proof. destruct n; simpl; [done|]. by destruct (strings.IndexByte s c). Qed.

Lemma Split_three_inv ln c f1 f2 f3 :
  strings.Split ln c = [f1; f2; f3] →
  ln = f1 +:+ String c (f2 +:+ String c f3) ∧
  strings.IndexByte f1 c = None ∧ strings.IndexByte f2 c = None ∧
  strings.IndexByte f3 c = None.
Proof.
  unfold strings.Split.
  destruct (strings.IndexByte ln c) as [i|] eqn:H1;
    [|by rewrite (genSplit_None _ _ _ H1)].
  destruct (IndexByte_Some _ _ _ H1) as (a1 & r1 & -> & _ & Ha1).
  rewrite (Count_cut _ _ _ Ha1), (genSplit_cut _ _ _ _ Ha1).
  destruct (strings.IndexByte r1 c) as [j|] eqn:H2;
    [|by rewrite (genSplit_None _ _ _ H2)].
  destruct (IndexByte_Some _ _ _ H2) as (a2 & r2 & -> & _ & Ha2).
  rewrite (Count_cut _ _ _ Ha2), (genSplit_cut _ _ _ _ Ha2).
  destruct (strings.Count r2 c) as [|n] eqn:Hc.
  - intros [= <- <- <-]. split_and!; [done..|]. by apply Count_0_None.
  - destruct (strings.IndexByte r2 c) as [k|] eqn:H3.
    + destruct (IndexByte_Some _ _ _ H3) as (a3 & r3 & -> & _ & Ha3).
      rewrite (genSplit_cut _ _ _ _ Ha3).
      pose proof (genSplit_ne_nil r3 c n). by destruct (strings.genSplit r3 c n).
    + by rewrite (Count_None _ _ H3) in Hc.
Qed.

(** X5: [parseRequestLine] accepts exactly the lines ["M P V"]: it
    answers ok with the fields [M], [P], [V] if and only if the line is
    these three fields with one space between them and no space in any of
    them.  Two spaces in a row, a leading or a trailing space make a
    fourth field and the line is refused. *)
Theorem parseRequestLine_iff ln method uri proto :
  parseRequestLine ln = (method, uri, proto, true) ↔
  ln = method +:+ " " +:+ uri +:+ " " +:+ proto ∧
  strings.IndexByte method " " = None ∧ strings.IndexByte uri " " = None ∧
  strings.IndexByte proto " " = None.
Proof.
  split.
  - unfold parseRequestLine.
    destruct (strings.Split ln " ") as [|s0 [|s1 [|s2 [|s3 fs]]]] eqn:Hs;
      try done.
    intros [= <- <- <-]. by apply Split_three_inv in Hs.
  - intros (-> & Hm & Hu & Hp). apply parseRequestLine_fields.
    by apply Split_three.
Qed.

End RequestTexts.

(** * More on the response *)

Section Wire.

Context {R : Runtime}.
Implicit Types (res : Response.t) (w : net.Conn).

Lemma net_Write_short w p :
  (net.quota w < String.length p)%nat →
  net.Write w p
  = ((net.quota w, Some ErrShortWrite),
     {| net.inbound := net.inbound w;
        net.outbound := net.outbound w +:+ strings.slice p 0 (net.quota w);
        net.quota := 0;
        net.calls := net.calls w ++ [net.CWrite p];
        net.closed := net.closed w |}).
Proof.
  intros Hq. unfold net.Write.
  rewrite Nat.min_r by lia. rewrite Nat.sub_diag.
  by destruct (Nat.leb_spec (String.length p) (net.quota w)); [lia|].
Qed.

Lemma writeHeadersTo_titled res tick w statusText :
  statusTitles !! Response.Status res = Some statusText →
  writeHeadersTo res tick w
  = ((net.Write w (headBytes res tick statusText)).1.2,
     setHeaders res (injected res tick),
     (net.Write w (headBytes res tick statusText)).2).
Proof. intros Hs. unfold writeHeadersTo. by rewrite Hs. Qed.

Lemma fold_headerLine_concat (hs : list (string * string)) (init : string) :
  fold_left (λ acc kv, acc +:+ headerLine kv) hs init
  = init +:+ concatAll (headerLine <$> hs).
Proof.
  revert init. induction hs as [|kv hs IH]; intros init;
    cbn [fold_left fmap list_fmap concatAll].
  - by rewrite append_nil_r.
  - by rewrite IH, append_assoc.
Qed.

(** X6: the response on the wire.  For a status code with a title and a
    peer that accepts the bytes, [writeTo] delivers the status line
    [proto SP status SP title CRLF], then one line [name: value CRLF] for
    each entry of the header map with Date and Content-Length set, each
    entry once and in some order, then the empty line, then the body.  The
    headers go out in one [Write], the body in a second one, which is not
    made for an empty body; the buffer of the response is empty afterwards. *)
Theorem writeTo_wire_format res tick w statusText :
  statusTitles !! Response.Status res = Some statusText →
  (String.length (headBytes res tick statusText)
   + String.length (Response.buf res) ≤ net.quota w)%nat →
  ∃ hs,
    hs ≡ₚ map_to_list (injected res tick) ∧
    headBytes res tick statusText
    = Response.proto res +:+ " " +:+ strconv.Itoa (Response.Status res)
        +:+ " " +:+ statusText +:+ crlf
        +:+ concatAll (headerLine <$> hs) +:+ crlf ∧
    (writeTo res tick w).1.1 = None ∧
    Response.buf (writeTo res tick w).1.2 = EmptyString ∧
    net.outbound (writeTo res tick w).2
    = net.outbound w +:+ headBytes res tick statusText +:+ Response.buf res ∧
    net.calls (writeTo res tick w).2
    = net.calls w ++
      net.CWrite (headBytes res tick statusText) ::
      match Response.buf res with
      | EmptyString => []
      | body => [net.CWrite body]
      end.
Proof.
  intros Hs Hq. exists (mapRange (injected res tick)).
  split; [apply mapRange_perm|]. split.
  { unfold headBytes. rewrite fold_headerLine_concat. by rewrite !append_assoc. }
  unfold writeTo. rewrite (writeHeadersTo_titled _ _ _ _ Hs).
  rewrite net_Write_ok by lia. cbn [fst snd setHeaders Response.buf].
  destruct (Response.buf res) as [|c body] eqn:Hbuf.
  - cbn [Buffer_WriteTo fst snd Response.buf net.outbound net.calls].
    by rewrite append_nil_r.
  - unfold Buffer_WriteTo. rewrite net_Write_ok.
    + rewrite Nat.eqb_refl.
      cbn [fst snd Response.buf net.outbound net.calls].
      split_and!; [done|done|by rewrite append_assoc|].
      by rewrite <- List.app_assoc.
    + cbn [net.quota]. lia.
Qed.

(** X7: a peer that stops accepting bytes.  When the headers do not fit in
    what the peer still accepts, [writeTo] returns the write error after
    the one [Write] of the headers, of which the peer got the beginning,
    and the body is not written; when the headers fit and the body does
    not, the peer got the headers and the beginning of the body, and the
    rest of the body stays in the buffer. *)
Theorem writeTo_short_write res tick w statusText :
  statusTitles !! Response.Status res = Some statusText →
  let head := headBytes res tick statusText in
  let body := Response.buf res in
  ((net.quota w < String.length head)%nat →
     writeTo res tick w
     = (Some ErrShortWrite, setHeaders res (injected res tick),
        {| net.inbound := net.inbound w;
           net.outbound := net.outbound w +:+ strings.slice head 0 (net.quota w);
           net.quota := 0;
           net.calls := net.calls w ++ [net.CWrite head];
           net.closed := net.closed w |})) ∧
  ((String.length head ≤ net.quota w)%nat →
   (net.quota w < String.length head + String.length body)%nat →
     (writeTo res tick w).1.1 = Some ErrShortWrite ∧
     Response.buf (writeTo res tick w).1.2
     = strings.sliceFrom body (net.quota w - String.length head) ∧
     net.outbound (writeTo res tick w).2
     = net.outbound w +:+ head
         +:+ strings.slice body 0 (net.quota w - String.length head) ∧
     net.calls (writeTo res tick w).2
     = net.calls w ++ [net.CWrite head; net.CWrite body]).
Proof.
  intros Hs head body. split.
  - intros Hq. unfold writeTo. rewrite (writeHeadersTo_titled _ _ _ _ Hs).
    fold head. by rewrite (net_Write_short _ _ Hq).
  - intros Hfit Hq. unfold writeTo. rewrite (writeHeadersTo_titled _ _ _ _ Hs).
    fold head. rewrite (net_Write_ok _ _ Hfit).
    cbn [fst snd setHeaders Response.buf]. fold body.
    destruct body as [|c body'] eqn:Hbody; [simpl in Hq; lia|].
    unfold Buffer_WriteTo. rewrite net_Write_short by (cbn [net.quota]; lia).
    cbn [fst snd Response.buf net.outbound net.calls net.quota].
    split_and!; [done|done|by rewrite append_assoc|by rewrite <- List.app_assoc].
Qed.

(** X8: writes of the handler add up.  After any number of calls of
    [Write] on a response the buffer holds the chunks in the order written,
    status, headers and protocol are untouched, and the Content-Length that
    [writeTo] then sets is the sum of the lengths written, whatever
    Content-Length the headers held. *)
Theorem Response_Write_accumulates res (chunks : list string) tick w :
  let res' := fold_left Response_Write chunks res in
  Response.buf res' = Response.buf res +:+ concatAll chunks ∧
  Response.Status res' = Response.Status res ∧
  Response.Headers res' = Response.Headers res ∧
  Response.proto res' = Response.proto res ∧
  (is_Some (statusTitles !! Response.Status res) →
   Response.Headers (writeTo res' tick w).1.2 !! "Content-Length"
   = Some (strconv.Itoa
             (Z.of_nat (String.length (Response.buf res)
                        + list_sum (String.length <$> chunks))))).
Proof.
  intros res'.
  assert (Response.buf res' = Response.buf res +:+ concatAll chunks ∧
          Response.Status res' = Response.Status res ∧
          Response.Headers res' = Response.Headers res ∧
          Response.proto res' = Response.proto res) as (Hb & Hst & Hh & Hp).
  { subst res'. revert res.
    induction chunks as [|x chunks IH]; intros res; cbn [fold_left concatAll].
    - by rewrite append_nil_r.
    - destruct (IH (Response_Write res x)) as (-> & -> & -> & ->).
      cbn [Response_Write Response.buf Response.Status Response.Headers
           Response.proto].
      by rewrite append_assoc. }
  split_and!; [done..|].
  intros [statusText Hs]. rewrite <- Hst in Hs.
  assert (Response.Headers (writeTo res' tick w).1.2 = injected res' tick) as ->.
  { unfold writeTo. rewrite (writeHeadersTo_titled _ _ _ _ Hs).
    by destruct (net.Write w _) as [[m [e|]] w1];
      [|destruct (Buffer_WriteTo _ _) as [[??]?]]. }
  unfold injected. rewrite lookup_insert_eq, Hb, length_append.
  do 4 f_equal. clear. induction chunks as [|x chunks IH]; [done|].
  cbn [concatAll fmap list_fmap list_sum]. rewrite length_append.
  by rewrite IH.
Qed.

End Wire.

(** * More on the connection loop *)

Section Loop.

Context {U : Unicode} {R : Runtime} {Hd : Handler}.
Implicit Types (b : bufio.Reader) (w c : net.Conn) (req : Request.t).

Lemma ToLower_empty : strings.ToLower EmptyString = EmptyString.
Proof. reflexivity. Qed.

(** X9: the response a handler starts from.  It has status 200, the
    protocol of the request and an empty body; its headers are empty
    unless [parseConnection] asks for the echo, and then they hold the one
    entry Connection with the value as the client spelled it, a value
    which in lower case is ["keep-alive"] or ["close"]: no Connection
    header is made up for a request that had none. *)
Theorem newResponse_fresh req :
  let res := (newResponse req).2 in
  (newResponse req).1 = (parseConnection req).1 ∧
  Response.Status res = 200 ∧
  Response.proto res = Request.Proto req ∧
  Response.buf res = EmptyString ∧
  ((parseConnection req).2 = false ∧ Response.Headers res = ∅ ∨
   (parseConnection req).2 = true ∧
   ∃ v, Request.Headers req !! "connection" = Some v ∧
        Response.Headers res = {["Connection" := v]} ∧
        (strings.ToLower v = "keep-alive" ∨ strings.ToLower v = "close")).
Proof.
  unfold newResponse.
  destruct (parseConnection req) as [keepalive echo] eqn:Hpc.
  cbn [fst snd]. destruct echo; cbn [setHeaders Response.Status Response.proto
    Response.buf Response.Headers]; (split_and!; [done..|]); [right|by left].
  split; [done|]. unfold parseConnection, header in *.
  destruct (Request.Headers req !! "connection") as [v|] eqn:Hv.
  - exists v. change (default EmptyString (Some v)) with v in *.
    split; [done|]. split; [by rewrite insert_empty|].
    destruct (String.eqb (Request.Proto req) http10).
    + destruct (String.eqb_spec (strings.ToLower v) "keep-alive"); [by left|done].
    + destruct (String.eqb (Request.Proto req) http11); [|done].
      destruct (String.eqb_spec (strings.ToLower v) "close"); [by right|done].
  - change (default EmptyString None) with EmptyString in Hpc.
    rewrite ToLower_empty in Hpc.
    destruct (String.eqb (Request.Proto req) http10); [done|].
    by destruct (String.eqb (Request.Proto req) http11).
Qed.

Lemma newResponse_keepalive req :
  (newResponse req).1 = (parseConnection req).1.
Proof. unfold newResponse. by destruct (parseConnection req). Qed.

(** X10: a version other than HTTP/1.0 and HTTP/1.1.  The connection is
    not kept alive and nothing is echoed, whatever the Connection header
    says; the loop answers such a request and is left after that one
    response, whether the write went well or not. *)
Theorem serve_other_version req :
  Request.Proto req ≠ http10 → Request.Proto req ≠ http11 →
  parseConnection req = (false, false) ∧
  newResponse req
  = (false, {| Response.Status := 200; Response.Headers := ∅;
               Response.proto := Request.Proto req;
               Response.buf := EmptyString |}) ∧
  ∀ fuel tick b w b1,
    readRequest b = Some (Ok req, b1) →
    serveLoop (S fuel) tick b w
    = Some (writeTo
              (response
                 (handle (ServeHTTP (newResponse req).2 req) EmptyString
                    (Request.Body req) b1)) tick w).2.
Proof.
  intros H10%String.eqb_neq H11%String.eqb_neq.
  assert (parseConnection req = (false, false)) as Hpc.
  { unfold parseConnection. by rewrite H10, H11. }
  assert (newResponse req
          = (false, {| Response.Status := 200; Response.Headers := ∅;
                       Response.proto := Request.Proto req;
                       Response.buf := EmptyString |})) as Hnew.
  { unfold newResponse. by rewrite Hpc. }
  split_and!; [done..|].
  intros fuel tick b w b1 Hr. rewrite serveLoop_S, Hr, Hnew. cbn [snd].
  by destruct (writeTo _ tick w) as [[[e|] res'] w'].
Qed.

(** ** The body of a request without length *)

Lemma readRequest_body b req b' :
  readRequest b = Some (Ok req, b') →
  match Request.Headers req !! "content-length" with
  | None => io.N (Request.Body req) = 0
  | Some str => strconv.ParseInt str = Ok (io.N (Request.Body req))
  end.
Proof.
  unfold readRequest. destruct (readHTTPLine b) as [r0 b1].
  match goal with |- context [match ?x with Ok _ => _ | Err _ => _ end] =>
    destruct x as [[[m u] q]|e] end; [|done].
  destruct (readHeaders _ b1 ∅) as [[[h|e] b2]|]; [|done..].
  destruct (h !! "content-length") as [s|] eqn:Hcl.
  - destruct (strconv.ParseInt s) as [cl|e] eqn:Hp; [|done].
    intros [= <- _]. cbn [Request.Headers Request.Body io.N]. by rewrite Hcl.
  - intros [= <- _]. cbn [Request.Headers Request.Body io.N]. by rewrite Hcl.
Qed.

(** X11: a request without Content-Length, or with one that is zero or
    negative (["-5"] is accepted by the parser), has a body that gives
    nothing: whatever reads the handler makes, it is given no byte and the
    stream stays where the header section ended. *)
Theorem body_without_length b req b1 (p : Handling) :
  readRequest b = Some (Ok req, b1) →
  (Request.Headers req !! "content-length" = None ∨
   io.N (Request.Body req) ≤ 0) →
  yielded (handle p EmptyString (Request.Body req) b1) = EmptyString ∧
  reader (handle p EmptyString (Request.Body req) b1) = b1.
Proof.
  intros Hr Hlen.
  assert (io.N (Request.Body req) ≤ 0) as HN.
  { destruct Hlen as [Hnone|]; [|done].
    pose proof (readRequest_body _ _ _ Hr) as Hb. rewrite Hnone in Hb. lia. }
  destruct (handle_inv p EmptyString (Request.Body req) b1)
    as (x & Hy & Hb & Hx & _).
  assert (x = EmptyString) as -> by (destruct x; [done|simpl in Hx; lia]).
  split; [by rewrite Hy|]. by rewrite Hb at 2.
Qed.

(** ** The calls made on the connection *)

Lemma writesOnly_refl w : writesOnly w w.
Proof.
  split_and!; [done..| |].
  - exists []. by rewrite List.app_nil_r.
  - exists EmptyString. rewrite append_nil_r. simpl. split; [done|lia].
Qed.

Lemma writesOnly_trans w1 w2 w3 :
  writesOnly w1 w2 → writesOnly w2 w3 → writesOnly w1 w3.
Proof.
  intros (Hi1 & Hc1 & (l1 & Hl1 & Hf1) & (o1 & Ho1 & Hq1))
         (Hi2 & Hc2 & (l2 & Hl2 & Hf2) & (o2 & Ho2 & Hq2)).
  split_and!; [congruence..| |].
  - exists (l1 ++ l2). split; [by rewrite Hl2, Hl1, List.app_assoc|].
    by apply Forall_app.
  - exists (o1 +:+ o2). split; [by rewrite Ho2, Ho1, append_assoc|].
    rewrite length_append. lia.
Qed.

Lemma writesOnly_Write w p : writesOnly w (net.Write w p).2.
Proof.
  unfold net.Write. cbn [snd]. split_and!; [done..| |].
  - exists [net.CWrite p]. split; [done|]. by constructor.
  - eexists. split; [done|]. cbn [net.quota]. rewrite length_slice. lia.
Qed.

Lemma writesOnly_writeTo res tick w : writesOnly w (writeTo res tick w).2.
Proof.
  unfold writeTo, writeHeadersTo.
  destruct (statusTitles !! Response.Status res) as [statusText|];
    [|apply writesOnly_refl].
  match goal with |- context [net.Write w ?p] =>
    pose proof (writesOnly_Write w p) as H1;
    destruct (net.Write w p) as [[m e] w1] end.
  cbn [snd] in H1. destruct e as [e|]; [done|].
  cbn [setHeaders Response.buf].
  destruct (Response.buf res) as [|ch body]; [done|].
  unfold Buffer_WriteTo.
  match goal with |- context [net.Write w1 ?p] =>
    pose proof (writesOnly_Write w1 p) as H2;
    destruct (net.Write w1 p) as [[m2 e2] w2] end.
  cbn [snd] in H2. pose proof (writesOnly_trans _ _ _ H1 H2).
  destruct e2; [done|]. by destruct (m2 =? _)%nat.
Qed.



(** ** The loop without its bound *)




(** X14: a stream without line feed, be it empty or a line cut off.
    [readRequest] fails with [io.EOF] and has consumed the stream (the
    error of the first read is passed over, the header loop then meets the
    end of the stream); in any turn of the loop the 400 text is written,
    and a peer that sends such a stream gets just that and is closed. *)
Theorem serve_unterminated :
  (∀ b, strings.IndexByte b LF = None →
     readHTTPLine b = (Err EOF, EmptyString) ∧
     readRequest b = Some (Err EOF, EmptyString)) ∧
  (∀ tick b w, strings.IndexByte b LF = None →
     serveFrom tick b w = Some (net.Write w bad).2) ∧
  (∀ c, strings.IndexByte (net.inbound c) LF = None →
     serve c = Some (net.Close (net.Write c bad).2)).
Proof.
  assert (∀ b, strings.IndexByte b LF = None →
            readRequest b = Some (Err EOF, EmptyString)) as Hreq.
  { intros b Hb. unfold readRequest. by rewrite (readHTTPLine_none _ Hb). }
  split_and!.
  - intros b Hb. split; [by apply readHTTPLine_none|by apply Hreq].
  - intros tick b w Hb. unfold serveFrom. by rewrite serveLoop_S, (Hreq _ Hb).
  - intros c Hb. unfold serve, bufio.NewReader.
    by rewrite serveLoop_S, (Hreq _ Hb).
Qed.

End Loop.

(** * Whole exchanges *)

Section Exchanges.

Context {U : Unicode} {R : Runtime} {Hd : Handler}.
Implicit Types (b : bufio.Reader) (w c : net.Conn) (req : Request.t).

Lemma writeTo_delivered (res : Response.t) tick w statusText :
  statusTitles !! Response.Status res = Some statusText →
  (String.length (headBytes res tick statusText)
   + String.length (Response.buf res) ≤ net.quota w)%nat →
  (writeTo res tick w).1.1 = None ∧
  net.closed (writeTo res tick w).2 = net.closed w ∧
  net.outbound (writeTo res tick w).2
  = net.outbound w +:+ headBytes res tick statusText +:+ Response.buf res ∧
  net.calls (writeTo res tick w).2
  = net.calls w ++
    net.CWrite (headBytes res tick statusText) ::
    match Response.buf res with
    | EmptyString => []
    | body => [net.CWrite body]
    end.
Proof.
  intros Hs Hq. unfold writeTo. rewrite (writeHeadersTo_titled _ _ _ _ Hs).
  rewrite net_Write_ok by lia. cbn [fst snd setHeaders Response.buf].
  destruct (Response.buf res) as [|ch body] eqn:Hbuf.
  - cbn [Buffer_WriteTo fst snd net.outbound net.calls net.closed].
    by rewrite append_nil_r.
  - unfold Buffer_WriteTo. rewrite net_Write_ok by (cbn [net.quota]; lia).
    rewrite Nat.eqb_refl. cbn [fst snd net.outbound net.calls net.closed].
    split_and!; [done|done|by rewrite append_assoc|].
    by rewrite <- List.app_assoc.
Qed.

Lemma readRequest_none b :
  strings.IndexByte b LF = None →
  readRequest b = Some (Err EOF, EmptyString).
Proof. intros Hb. unfold readRequest. by rewrite (readHTTPLine_none _ Hb). Qed.

(** X15: one request, one response.  When the request at the head of the
    stream is parsed, the connection is not to be kept alive, the status
    the handler leaves has a title and the peer accepts the bytes, then
    [serve] returns with the connection closed, the peer has received
    exactly the headers and the body of that one response, and the calls
    made are the writes of that response followed by [Close]: what follows
    the request in the stream is never answered. *)
Theorem serve_one_exchange c req b1 statusText :
  readRequest (net.inbound c) = Some (Ok req, b1) →
  (parseConnection req).1 = false →
  let res :=
    response (handle (ServeHTTP (newResponse req).2 req) EmptyString
                (Request.Body req) b1) in
  statusTitles !! Response.Status res = Some statusText →
  (String.length (headBytes res 0 statusText)
   + String.length (Response.buf res) ≤ net.quota c)%nat →
  ∃ c',
    serve c = Some c' ∧
    net.closed c' = true ∧
    net.outbound c'
    = net.outbound c +:+ headBytes res 0 statusText +:+ Response.buf res ∧
    net.calls c'
    = net.calls c ++
      net.CWrite (headBytes res 0 statusText) ::
      match Response.buf res with
      | EmptyString => []
      | body => [net.CWrite body]
      end ++ [net.CClose].
Proof.
  intros Hr Hk res Hs Hq.
  destruct (writeTo_delivered res 0 c statusText Hs Hq)
    as (Herr & _ & Hout & Hcalls).
  unfold serve, bufio.NewReader. rewrite serveLoop_S, Hr.
  rewrite <- newResponse_keepalive in Hk. subst res.
  destruct (newResponse req) as [keepalive res0]. cbn [fst snd] in *.
  subst keepalive. cbv zeta.
  destruct (writeTo _ 0%nat c) as [[e res'] w']. cbn [fst snd] in *. subst e.
  eexists. split; [done|]. unfold net.Close.
  cbn [net.closed net.outbound net.calls].
  split_and!; [done|done|]. rewrite Hcalls.
  rewrite <- List.app_assoc. done.
Qed.

(** X16: a client that closes after a kept-alive exchange.  When a request
    is answered and the connection kept alive, and the stream then ends
    (nothing more, or a line without its end), the next turn of the loop
    writes the 400 text after the response before the connection is
    closed: the end of the stream is not told apart from a bad request. *)
Theorem serve_keepalive_then_eof c req b1 res' w' :
  readRequest (net.inbound c) = Some (Ok req, b1) →
  (parseConnection req).1 = true →
  let hd := handle (ServeHTTP (newResponse req).2 req) EmptyString
              (Request.Body req) b1 in
  writeTo (response hd) 0 c = (None, res', w') →
  strings.IndexByte (reader hd) LF = None →
  serve c = Some (net.Close (net.Write w' bad).2) ∧
  ∃ l, net.calls (net.Close (net.Write w' bad).2)
       = net.calls c ++ l ++ [net.CWrite bad; net.CClose].
Proof.
  intros Hr Hk hd Hw Heof.
  pose proof (writesOnly_writeTo (response hd) 0 c) as Hwo.
  rewrite Hw in Hwo. cbn [snd] in Hwo.
  destruct Hwo as (_ & _ & (l & Hl & _) & _).
  split.
  - unfold serve, bufio.NewReader. rewrite serveLoop_S, Hr.
    rewrite <- newResponse_keepalive in Hk. subst hd.
    destruct (newResponse req) as [keepalive res0]. cbn [fst snd] in *.
    subst keepalive. cbv zeta. rewrite Hw.
    pose proof (readRequest_shorter _ _ _ Hr) as Hlen.
    destruct (String.length (net.inbound c)) as [|n]; [lia|].
    by rewrite serveLoop_S, (readRequest_none _ Heof).
  - exists l. unfold net.Close, net.Write. cbn [snd net.calls]. rewrite Hl.
    by rewrite <- !List.app_assoc.
Qed.

End Exchanges.

(** * More runs *)

Section MoreRuns.

Existing Instance asciiText.
Existing Instance fixedRuntime.

Lemma readRequest_requestText_witness :
  Forall wireLine ["Host: x"; "Content-Length: 3"] ∧
  strings.IndexByte "GET" " " = None ∧ strings.IndexByte "/a" LF = None ∧
  readRequest
    (requestText "GET" "/a" "HTTP/1.1" ["Host: x"; "Content-Length: 3"]
       +:+ "abc")
  = Some (Ok {| Request.Method := "GET"; Request.URI := "/a";
                Request.Proto := "HTTP/1.1";
                Request.Headers :=
                  {["host" := "x"; "content-length" := "3"]};
                Request.Body := {| io.N := 3 |} |}, "abc").
Proof.
  assert (Forall wireLine ["Host: x"; "Content-Length: 3"]) as Hlines
    by (repeat constructor; discriminate).
  split; [exact Hlines|]. split; [reflexivity|]. split; [reflexivity|].
  rewrite (readRequest_requestText "GET" "/a" "HTTP/1.1" _ "abc"
             eq_refl eq_refl eq_refl eq_refl eq_refl eq_refl Hlines).
  vm_compute. reflexivity.
Defined.

Lemma readHeaders_last_wins_witness :
  Forall wireLine (["Host: a"] ++ ("HOST" +:+ String ":" " b") :: ["Accept: *"]) ∧
  strings.IndexByte "HOST" ":" = None ∧
  ∃ h', readHeaders 4
          (headerText
             (["Host: a"] ++ ("HOST" +:+ String ":" " b") :: ["Accept: *"])
           +:+ crlf +:+ EmptyString) ∅
        = Some (Ok h', EmptyString) ∧
        h' !! "host" = Some "b".
Proof.
  assert (Forall wireLine
            (["Host: a"] ++ ("HOST" +:+ String ":" " b") :: ["Accept: *"]))
    as Hlines by (repeat constructor; discriminate).
  split; [exact Hlines|]. split; [reflexivity|].
  apply (readHeaders_last_wins ["Host: a"] "HOST" " b" ["Accept: *"]
           EmptyString ∅ 4 Hlines eq_refl).
  - repeat constructor. intros k v Hp. vm_compute in Hp.
    injection Hp as <- _. discriminate.
  - vm_compute. lia.
Defined.

Lemma readRequest_cut_off_witness :
  Forall wireLine ["Host: x"] ∧ strings.IndexByte "Acc" LF = None ∧
  readRequest
    (("GET" +:+ " " +:+ "/a" +:+ " " +:+ "HTTP/1.1") +:+ crlf
       +:+ headerText ["Host: x"] +:+ "Acc")
  = Some (Err EOF, EmptyString).
Proof.
  assert (Forall wireLine ["Host: x"]) as Hlines
    by (repeat constructor; discriminate).
  split; [exact Hlines|]. split; [reflexivity|].
  exact (readRequest_cut_off "GET" "/a" "HTTP/1.1" _ "Acc"
           eq_refl eq_refl eq_refl eq_refl eq_refl eq_refl Hlines eq_refl).
Defined.

Lemma readRequest_frame_witness :
  readRequest twoRequests11
  = Some (Ok (request11 "/a"), "GET /b HTTP/1.1" +:+ crlf +:+ crlf) ∧
  ∃ c, twoRequests11 = c +:+ "GET /b HTTP/1.1" +:+ crlf +:+ crlf ∧
       ∀ rest, readRequest (c +:+ rest) = Some (Ok (request11 "/a"), rest).
Proof.
  assert (readRequest twoRequests11
          = Some (Ok (request11 "/a"), "GET /b HTTP/1.1" +:+ crlf +:+ crlf))
    as Hr by (vm_compute; reflexivity).
  split; [exact Hr|].
  destruct (readRequest_frame _ _ _ Hr) as (c & Hc & _ & Hrest).
  exists c. split; [exact Hc|exact Hrest].
Defined.

Lemma parseRequestLine_iff_witness :
  strings.IndexByte "GET" " " = None ∧ strings.IndexByte "/a" " " = None ∧
  strings.IndexByte "HTTP/1.1" " " = None ∧
  parseRequestLine ("GET" +:+ " " +:+ "/a" +:+ " " +:+ "HTTP/1.1")
  = ("GET", "/a", "HTTP/1.1", true) ∧
  parseRequestLine "GET  /a HTTP/1.1" ≠ ("GET", "/a", "HTTP/1.1", true).
Proof.
  split; [reflexivity|]. split; [reflexivity|]. split; [reflexivity|]. split.
  - apply (proj2 (parseRequestLine_iff _ "GET" "/a" "HTTP/1.1")).
    split_and!; reflexivity.
  - intros Hp.
    apply (proj1 (parseRequestLine_iff _ "GET" "/a" "HTTP/1.1")) in Hp
      as [Hp _].
    discriminate Hp.
Defined.

Lemma writeTo_wire_format_witness :
  statusTitles !! Response.Status okResponse = Some "OK" ∧
  (String.length (headBytes okResponse 0 "OK")
   + String.length (Response.buf okResponse) ≤ net.quota (dial EmptyString 100))%nat ∧
  net.outbound (writeTo okResponse 0 (dial EmptyString 100)).2
  = "HTTP/1.1 200 OK" +:+ crlf +:+ "Content-Length: 5" +:+ crlf
      +:+ "Date: Mon, 02 Jan 2006 15:04:05 GMT" +:+ crlf +:+ crlf +:+ "hello" ∧
  net.calls (writeTo okResponse 0 (dial EmptyString 100)).2
  = [net.CWrite (headBytes okResponse 0 "OK"); net.CWrite "hello"].
Proof.
  assert (String.length (headBytes okResponse 0 "OK")
          + String.length (Response.buf okResponse)
          ≤ net.quota (dial EmptyString 100))%nat as Hq by (vm_compute; lia).
  split; [reflexivity|]. split; [exact Hq|].
  destruct (writeTo_wire_format okResponse 0 (dial EmptyString 100) "OK"
              eq_refl Hq) as (hs & _ & _ & _ & _ & Hout & Hcalls).
  split; [rewrite Hout; vm_compute; reflexivity|exact Hcalls].
Defined.

Lemma writeTo_short_write_witness :
  statusTitles !! Response.Status okResponse = Some "OK" ∧
  String.length (headBytes okResponse 0 "OK") = 75%nat ∧
  net.outbound (writeTo okResponse 0 (dial EmptyString 10)).2 = "HTTP/1.1 2" ∧
  net.calls (writeTo okResponse 0 (dial EmptyString 10)).2
  = [net.CWrite (headBytes okResponse 0 "OK")] ∧
  (writeTo okResponse 0 (dial EmptyString 77)).1.1 = Some ErrShortWrite ∧
  Response.buf (writeTo okResponse 0 (dial EmptyString 77)).1.2 = "llo".
Proof.
  destruct (writeTo_short_write okResponse 0 (dial EmptyString 10) "OK" eq_refl)
    as [Hhead _].
  destruct (writeTo_short_write okResponse 0 (dial EmptyString 77) "OK" eq_refl)
    as [_ Hbody].
  split; [reflexivity|]. split; [vm_compute; reflexivity|].
  rewrite Hhead by (vm_compute; lia).
  split; [vm_compute; reflexivity|]. split; [reflexivity|].
  destruct Hbody as (Herr & Hbuf & _); [vm_compute; lia..|].
  split; [exact Herr|]. rewrite Hbuf. vm_compute. reflexivity.
Defined.

Lemma Response_Write_accumulates_witness :
  is_Some (statusTitles !! Response.Status okResponse) ∧
  Response.buf (fold_left Response_Write ["ab"; "cde"] okResponse)
  = "helloabcde" ∧
  Response.Headers
    (writeTo (fold_left Response_Write ["ab"; "cde"] okResponse) 0
       (dial EmptyString 100)).1.2 !! "Content-Length" = Some "10".
Proof.
  assert (is_Some (statusTitles !! Response.Status okResponse)) as Hs
    by (by exists "OK").
  split; [exact Hs|].
  destruct (Response_Write_accumulates okResponse ["ab"; "cde"] 0
              (dial EmptyString 100)) as (Hbuf & _ & _ & _ & Hcl).
  split; [rewrite Hbuf; reflexivity|]. rewrite (Hcl Hs). reflexivity.
Defined.

Lemma serve_other_version_witness :
  Request.Proto (request "HTTP/2.0" {["connection" := "keep-alive"]} 0)
  ≠ http10 ∧
  Request.Proto (request "HTTP/2.0" {["connection" := "keep-alive"]} 0)
  ≠ http11 ∧
  parseConnection (request "HTTP/2.0" {["connection" := "keep-alive"]} 0)
  = (false, false).
Proof.
  assert (Request.Proto (request "HTTP/2.0" {["connection" := "keep-alive"]} 0)
          ≠ http10) as H10 by discriminate.
  assert (Request.Proto (request "HTTP/2.0" {["connection" := "keep-alive"]} 0)
          ≠ http11) as H11 by discriminate.
  split; [exact H10|]. split; [exact H11|].
  exact (proj1 (serve_other_version (Hd := echoHandler) _ H10 H11)).
Defined.

Lemma body_without_length_witness :
  ∃ req,
    readRequest negativeLength = Some (Ok req, "hello") ∧
    io.N (Request.Body req) = -5 ∧
    yielded (handle (ServeHTTP (Handler := echoHandler) (newResponse req).2 req)
               EmptyString (Request.Body req) "hello") = EmptyString ∧
    reader (handle (ServeHTTP (Handler := echoHandler) (newResponse req).2 req)
              EmptyString (Request.Body req) "hello") = "hello".
Proof.
  destruct (readRequest negativeLength) as [[[req|e] b1]|] eqn:Hr;
    [|discriminate Hr..].
  pose proof Hr as Hr'. vm_compute in Hr'. injection Hr' as <- <-.
  eexists. split; [reflexivity|]. split; [reflexivity|].
  apply (body_without_length negativeLength _ "hello"); [exact Hr|].
  right. vm_compute. discriminate.
Defined.

Lemma serve_one_exchange_witness :
  readRequest (net.inbound (dial twoRequests11 100))
  = Some (Ok (request11 "/a"), "GET /b HTTP/1.1" +:+ crlf +:+ crlf) ∧
  (parseConnection (request11 "/a")).1 = false ∧
  ∃ c', serve (Hd := uriHandler) (dial twoRequests11 100) = Some c' ∧
        net.closed c' = true ∧
        net.outbound c'
        = "HTTP/1.1 200 OK" +:+ crlf +:+ "Content-Length: 2" +:+ crlf
            +:+ "Date: Mon, 02 Jan 2006 15:04:05 GMT" +:+ crlf +:+ crlf
            +:+ "/a".
Proof.
  assert (readRequest (net.inbound (dial twoRequests11 100))
          = Some (Ok (request11 "/a"), "GET /b HTTP/1.1" +:+ crlf +:+ crlf))
    as Hr by (vm_compute; reflexivity).
  split; [exact Hr|]. split; [reflexivity|].
  destruct (serve_one_exchange (Hd := uriHandler) _ _ _ "OK" Hr eq_refl eq_refl)
    as (c' & Hs & Hclosed & Hout & _); [vm_compute; lia|].
  exists c'. split; [exact Hs|]. split; [exact Hclosed|].
  rewrite Hout. vm_compute. reflexivity.
Defined.

Lemma serve_keepalive_then_eof_witness :
  readRequest (net.inbound (dial keepAliveOnce 200))
  = Some (Ok keepAliveRequest, EmptyString) ∧
  (parseConnection keepAliveRequest).1 = true ∧
  ∃ res' w',
    writeTo
      (response
         (handle
            (ServeHTTP (Handler := uriHandler) (newResponse keepAliveRequest).2
               keepAliveRequest)
            EmptyString (Request.Body keepAliveRequest) EmptyString)) 0
      (dial keepAliveOnce 200) = (None, res', w') ∧
    serve (Hd := uriHandler) (dial keepAliveOnce 200)
    = Some (net.Close (net.Write w' bad).2).
Proof.
  assert (readRequest (net.inbound (dial keepAliveOnce 200))
          = Some (Ok keepAliveRequest, EmptyString)) as Hr
    by (vm_compute; reflexivity).
  split; [exact Hr|]. split; [reflexivity|].
  destruct (writeTo
    (response
       (handle
          (ServeHTTP (Handler := uriHandler) (newResponse keepAliveRequest).2
             keepAliveRequest)
          EmptyString (Request.Body keepAliveRequest) EmptyString)) 0
    (dial keepAliveOnce 200)) as [[e res'] w'] eqn:Hw.
  pose proof Hw as Hw'. vm_compute in Hw'. injection Hw' as <- _ _.
  exists res', w'. split; [reflexivity|].
  exact (proj1 (serve_keepalive_then_eof (Hd := uriHandler) _ _ _ _ _ Hr
                  eq_refl Hw eq_refl)).
Defined.

Lemma serve_unterminated_witness :
  strings.IndexByte cutOff LF = None ∧
  strings.IndexByte EmptyString LF = None ∧
  readRequest cutOff = Some (Err EOF, EmptyString) ∧
  serve (Hd := echoHandler) (dial EmptyString 100)
  = Some (net.Close (net.Write (dial EmptyString 100) bad).2).
Proof.
  destruct (serve_unterminated (Hd := echoHandler)) as (Hread & _ & Hserve).
  split; [reflexivity|]. split; [reflexivity|]. split.
  - exact (proj2 (Hread cutOff eq_refl)).
  - exact (Hserve (dial EmptyString 100) eq_refl).
Defined.

End MoreRuns.
